(** * Medication usage dashboard: filtering and aggregation

    A shallow embedding of [main.py]: the loaded table with its derived date
    fields, the sidebar's widget arithmetic, the row filter, the weekday
    aggregation, the descriptive statistics, the correlation matrix and the
    display stage with the exceptions it can raise.

    The script is a composition of pandas and Streamlit calls.  Each call is
    embedded as the function the library documents (boolean-mask indexing,
    [isin], [groupby(...).mean()], [describe], [sum], [corr], [multiselect]),
    and the script's own control flow is kept as it is written. *)

From Stdlib Require Import ZArith List Bool Lia String Ascii Permutation Sorted.
From Stdlib Require Import Floats Uint63.
From Stdlib Require Import Reals Lra.
Import ListNotations.

Local Open Scope Z_scope.

(** ** Exceptions

    Python exceptions the script can raise, and the result of a computation
    that may raise one. *)

Inductive exn : Type :=
| KeyError (key : string)
| ValueError (msg : string)
| StreamlitAPIException (msg : string).

Inductive result (A : Type) : Type :=
| Ok (a : A)
| Raise (e : exn).

Arguments Ok {A} a.
Arguments Raise {A} e.

Definition bind {A B : Type} (r : result A) (k : A -> result B) : result B :=
  match r with
  | Ok a => k a
  | Raise e => Raise e
  end.

Notation "x <- r ;; k" := (bind r (fun x => k))
  (at level 61, r at next level, right associativity).

Fixpoint mapM {A B : Type} (f : A -> result B) (l : list A) : result (list B) :=
  match l with
  | [] => Ok []
  | a :: l' => b <- f a ;; bs <- mapM f l' ;; Ok (b :: bs)
  end.

Definition raises {A : Type} (r : result A) : bool :=
  match r with
  | Ok _ => false
  | Raise _ => true
  end.

(** ** Numbers

    Measurement cells are [float64]: the type [read_csv] gives a column in
    which a cell is missing or has a decimal point.  (A column of whole
    numbers throughout is read as [int64]; pandas converts it to [float64]
    for every reduction used here except [sum()], which is embedded apart as
    [sum_int64].)  The operations pandas applies to the cells are gathered in
    one interface, so that every definition below is written once and read at
    two carriers: binary64 floats (the code's own numbers, which compute), and
    exact reals extended with a NaN (the arithmetic the statistical formulas
    are stated in). *)

Class Float64 (F : Type) : Type := {
  fnan : F;
  fisna : F -> bool;          (* pandas [isna]: the value is NaN *)
  fisfinite : F -> bool;      (* numpy [isfinite]: neither NaN nor infinite *)
  fofZ : Z -> F;              (* integer to float conversion *)
  fadd : F -> F -> F;
  fsub : F -> F -> F;
  fmul : F -> F -> F;
  fdiv : F -> F -> F;
  fsqrt : F -> F;
  feqb : F -> F -> bool;      (* [==], false on NaN *)
  fltb : F -> F -> bool;      (* [<], false on NaN *)
  fleb : F -> F -> bool       (* [<=], false on NaN *)
}.

(** Integer to float, for the counts and small literals the script
    converts (magnitudes below [2^63]). *)
Definition Z_to_float (z : Z) : float :=
  if z <? 0 then PrimFloat.opp (PrimFloat.of_uint63 (Uint63.of_Z (- z)))
  else PrimFloat.of_uint63 (Uint63.of_Z z).

#[export] Instance binary64 : Float64 float := {|
  fnan := PrimFloat.nan;
  fisna := PrimFloat.is_nan;
  fisfinite := PrimFloat.is_finite;
  fofZ := Z_to_float;
  fadd := PrimFloat.add;
  fsub := PrimFloat.sub;
  fmul := PrimFloat.mul;
  fdiv := PrimFloat.div;
  fsqrt := PrimFloat.sqrt;
  feqb := PrimFloat.eqb;
  fltb := PrimFloat.ltb;
  fleb := PrimFloat.leb
|}.

(** Exact arithmetic: a real number, or NaN ([None]).  There are no
    infinities; a division by zero and the root of a negative number are
    NaN. *)

Definition xreal : Type := option R.

Definition xlift2 (op : R -> R -> R) (a b : xreal) : xreal :=
  match a, b with
  | Some x, Some y => Some (op x y)
  | _, _ => None
  end.

Definition xdiv (a b : xreal) : xreal :=
  match a, b with
  | Some x, Some y => if Req_dec_T y 0 then None else Some (x / y)%R
  | _, _ => None
  end.

Definition xsqrt (a : xreal) : xreal :=
  match a with
  | Some x => if Rlt_dec x 0 then None else Some (sqrt x)
  | None => None
  end.

Definition xcmp (c : R -> R -> bool) (a b : xreal) : bool :=
  match a, b with
  | Some x, Some y => c x y
  | _, _ => false
  end.

Definition Reqb (x y : R) : bool := if Req_dec_T x y then true else false.
Definition Rltb (x y : R) : bool := if Rlt_dec x y then true else false.
Definition Rleb (x y : R) : bool := if Rle_dec x y then true else false.

Definition isSome {A : Type} (o : option A) : bool :=
  match o with
  | Some _ => true
  | None => false
  end.

#[export] Instance exact : Float64 xreal := {|
  fnan := None;
  fisna := fun a => negb (isSome a);
  fisfinite := isSome;
  fofZ := fun z => Some (IZR z);
  fadd := xlift2 Rplus;
  fsub := xlift2 Rminus;
  fmul := xlift2 Rmult;
  fdiv := xdiv;
  fsqrt := xsqrt;
  feqb := xcmp Reqb;
  fltb := xcmp Rltb;
  fleb := xcmp Rleb
|}.

(** ** Calendar dates

    A parsed [Date] cell.  The script reads only the calendar part of a
    timestamp (day, month, year, weekday name, and a [%Y-%m-%d] rendering), so
    a timestamp is its civil date. *)

Record Timestamp : Type := mkTimestamp {
  ts_year : Z;
  ts_month : Z;
  ts_day : Z
}.

Inductive weekday : Type :=
| Monday | Tuesday | Wednesday | Thursday | Friday | Saturday | Sunday.

Definition weekday_eqb (a b : weekday) : bool :=
  match a, b with
  | Monday, Monday | Tuesday, Tuesday | Wednesday, Wednesday
  | Thursday, Thursday | Friday, Friday | Saturday, Saturday
  | Sunday, Sunday => true
  | _, _ => false
  end.

(** The text [day_name()] returns for each weekday. *)
Definition day_name_text (w : weekday) : string :=
  match w with
  | Monday => "Monday" | Tuesday => "Tuesday" | Wednesday => "Wednesday"
  | Thursday => "Thursday" | Friday => "Friday" | Saturday => "Saturday"
  | Sunday => "Sunday"
  end.

(** Days since 1970-01-01 in the proleptic Gregorian calendar. *)
Definition days_from_civil (t : Timestamp) : Z :=
  let y := if ts_month t <=? 2 then ts_year t - 1 else ts_year t in
  let era := y / 400 in
  let yoe := y - era * 400 in
  let mp := if ts_month t >? 2 then ts_month t - 3 else ts_month t + 9 in
  let doy := (153 * mp + 2) / 5 + ts_day t - 1 in
  let doe := yoe * 365 + yoe / 4 - yoe / 100 + doy in
  era * 146097 + doe - 719468.

(** [dt.dayofweek]: Monday is 0 (1970-01-01 was a Thursday). *)
Definition dayofweek (t : Timestamp) : Z := (days_from_civil t + 3) mod 7.

Definition weekday_of_index (i : Z) : weekday :=
  match i with
  | 0 => Monday | 1 => Tuesday | 2 => Wednesday | 3 => Thursday
  | 4 => Friday | 5 => Saturday | _ => Sunday
  end.

(** [dt.day_name()] on one timestamp. *)
Definition day_name (t : Timestamp) : weekday := weekday_of_index (dayofweek t).

Definition ts_ltb (a b : Timestamp) : bool :=
  (ts_year a <? ts_year b)
  || ((ts_year a =? ts_year b)
      && ((ts_month a <? ts_month b)
          || ((ts_month a =? ts_month b) && (ts_day a <? ts_day b)))).

Definition digit (n : Z) : ascii := ascii_of_nat (48 + Z.to_nat (n mod 10)).

Definition pad2 (n : Z) : string := String (digit (n / 10)) (String (digit n) EmptyString).

Definition pad3 (n : Z) : string := String (digit (n / 100)) (pad2 n).

Definition pad4 (n : Z) : string := String (digit (n / 1000)) (pad3 n).

Definition plain3 (n : Z) : string :=
  if n <? 10 then String (digit n) EmptyString
  else if n <? 100 then pad2 n else pad3 n.

(** [%Y]: the year in decimal without padding, as the platform's [strftime]
    prints it (a [datetime] year lies in 1..9999). *)
Definition year_text (n : Z) : string :=
  if n <? 1000 then plain3 n else pad4 n.

(** [strftime('%Y-%m-%d')].  On [NaT] pandas raises [ValueError]. *)
Definition strftime (t : option Timestamp) : result string :=
  match t with
  | Some d =>
      Ok (year_text (ts_year d) ++ "-" ++ pad2 (ts_month d) ++ "-" ++ pad2 (ts_day d))%string
  | None => Raise (ValueError "NaTType does not support strftime")
  end.

(** The format spec [:,] : decimal digits grouped by thousands. *)
Fixpoint thousands (fuel : nat) (n : Z) : string :=
  match fuel with
  | O => plain3 n
  | S fuel' =>
      if n <? 1000 then plain3 n
      else (thousands fuel' (n / 1000) ++ "," ++ pad3 (n mod 1000))%string
  end.

Definition format_count (n : nat) : string := thousands n (Z.of_nat n).

(** ** Sorting

    A stable insertion sort that, like Python's and numpy's sorts, looks at its
    elements through [<] alone. *)

Fixpoint insert_by {A : Type} (lt : A -> A -> bool) (x : A) (l : list A) : list A :=
  match l with
  | [] => [x]
  | y :: l' => if lt x y then x :: l else y :: insert_by lt x l'
  end.

Definition sort_by {A : Type} (lt : A -> A -> bool) (l : list A) : list A :=
  fold_left (fun acc x => insert_by lt x acc) l [].

(** ** The table *)

Section Dashboard.

Context {F : Type} `{Float64 F}.

(** One loaded row: the parsed [Date] ([None] is [NaT]), the four derived
    fields ([None] is NaN), and the cells of the CSV's other columns in header
    order. *)
Record Row : Type := mkRow {
  Date : option Timestamp;
  Day : option Z;
  Month : option Z;
  Year : option Z;
  Weekday_Name : option weekday;
  cells : list F
}.

(** A frame: the names of the CSV's columns other than [Date], and the rows.
    Boolean indexing keeps the columns and selects rows. *)
Record DataFrame : Type := mkFrame {
  header : list string;
  rows : list Row
}.

(** A record of [pharma.csv] as [read_csv] yields it: the [Date] text and the
    numeric cells. *)
Record CsvRecord : Type := mkCsv {
  date_text : string;
  csv_cells : list F
}.

Definition derive (d : option Timestamp) (cs : list F) : Row :=
  {| Date := d;
     Day := option_map ts_day d;
     Month := option_map ts_month d;
     Year := option_map ts_year d;
     Weekday_Name := option_map day_name d;
     cells := cs |}.

(** [load_data].  [to_datetime] is [pd.to_datetime(..., errors='coerce')] on
    one cell: the parsed timestamp, or [None] ([NaT]) for text it cannot
    parse. *)
Definition load_data (to_datetime : string -> option Timestamp)
    (hdr : list string) (csv : list CsvRecord) : DataFrame :=
  {| header := hdr;
     rows := map (fun r => derive (to_datetime (date_text r)) (csv_cells r)) csv |}.

Definition reserved_columns : list string :=
  ["Date"; "Day"; "Month"; "Year"; "Weekday Name"]%string.

Definition str_in (s : string) (l : list string) : bool :=
  existsb (String.eqb s) l.

(** Line 28. *)
Definition medication_columns (df : DataFrame) : list string :=
  filter (fun col => negb (str_in col reserved_columns)) (header df).

Fixpoint index_of (s : string) (l : list string) : option nat :=
  match l with
  | [] => None
  | x :: l' => if String.eqb s x then Some O else option_map S (index_of s l')
  end.

(** [df[name]] for a measurement column; [KeyError] when there is none of
    that name. *)
Definition column (df : DataFrame) (name : string) : result (list F) :=
  if str_in name reserved_columns then Raise (KeyError name)
  else match index_of name (header df) with
       | Some i => Ok (map (fun r => nth i (cells r) fnan) (rows df))
       | None => Raise (KeyError name)
       end.

(** [df[names]]: the selected columns, in the order asked for.  The script
    asks for names the medication control offers, which are columns; for a
    name that is not, the embedding stops at the first one, while pandas
    lists every missing name in its [KeyError] and plotly refuses the name
    with a [ValueError] of its own. *)
Definition select (df : DataFrame) (names : list string) : result (list (list F)) :=
  mapM (column df) names.

(** ** Sidebar *)

Definition nonnull {A : Type} (l : list (option A)) : list A :=
  flat_map (fun o => match o with Some a => [a] | None => [] end) l.

(** [Series.min()] and [Series.max()] on a derived column: NaN is skipped,
    and the result is NaN when nothing is left. *)
Definition series_min (l : list (option Z)) : option Z :=
  match nonnull l with
  | [] => None
  | x :: xs => Some (fold_left Z.min xs x)
  end.

Definition series_max (l : list (option Z)) : option Z :=
  match nonnull l with
  | [] => None
  | x :: xs => Some (fold_left Z.max xs x)
  end.

(** [int(v)]: [ValueError] on NaN. *)
Definition to_int (v : option Z) : result Z :=
  match v with
  | Some z => Ok z
  | None => Raise (ValueError "cannot convert float NaN to integer")
  end.

(** Line 36. *)
Definition year_bounds (df : DataFrame) : result (Z * Z) :=
  lo <- to_int (series_min (map Year (rows df))) ;;
  hi <- to_int (series_max (map Year (rows df))) ;;
  Ok (lo, hi).

(** Equality of two cells of a derived column as [unique] and [isin] see it:
    NaN is one value. *)
Definition cell_eqb (a b : option Z) : bool :=
  match a, b with
  | Some x, Some y => x =? y
  | None, None => true
  | _, _ => false
  end.

(** [<] on two cells: false when either is NaN. *)
Definition cell_ltb (a b : option Z) : bool :=
  match a, b with
  | Some x, Some y => x <? y
  | _, _ => false
  end.

(** [Series.unique()]: the distinct values in order of first appearance. *)
Fixpoint unique_from (seen l : list (option Z)) : list (option Z) :=
  match l with
  | [] => []
  | x :: l' =>
      if existsb (cell_eqb x) seen then unique_from seen l'
      else x :: unique_from (x :: seen) l'
  end.

Definition unique (l : list (option Z)) : list (option Z) := unique_from [] l.

(** [sorted(...)]: a stable sort that compares with [<] only.  On a list
    without NaN this is the ascending order; where a NaN is present the place
    CPython gives it depends on the sort's internals, and only membership is
    read off the result. *)
Definition sorted (l : list (option Z)) : list (option Z) := sort_by cell_ltb l.

(** Line 45. *)
Definition available_months (df : DataFrame) : list (option Z) :=
  sorted (unique (map Month (rows df))).

(** [st.multiselect(options, default)]: Streamlit refuses a default that is
    not among the options; otherwise the widget holds the default until the
    user chooses ([chosen]). *)
Definition multiselect {A : Type} (eqb : A -> A -> bool)
    (options default : list A) (chosen : option (list A)) : result (list A) :=
  if forallb (fun d => existsb (eqb d) options) default
  then Ok (match chosen with Some c => c | None => default end)
  else Raise (StreamlitAPIException "Every Multiselect default value must exist in options").

(** The pair a range slider holds once it is drawn: its default
    [value=(min_value, max_value)] until the user moves it ([chosen]). *)
Definition slider (min_value max_value : Z) (chosen : option (Z * Z)) : Z * Z :=
  match chosen with
  | Some v => v
  | None => (min_value, max_value)
  end.

(** [st.slider(label, min_value, max_value, value=(min_value, max_value))]:
    Streamlit refuses to draw a slider whose [min_value] is not below its
    [max_value] and raises one of its API errors (named
    [StreamlitInvalidMinMaxError] in current releases), embedded here as
    [StreamlitAPIException]; otherwise the call returns the slider's pair. *)
Definition st_slider (min_value max_value : Z) (chosen : option (Z * Z))
  : result (Z * Z) :=
  if min_value <? max_value then Ok (slider min_value max_value chosen)
  else Raise (StreamlitAPIException "Slider min_value must be less than max_value").

(** Lines 46-50: the month control, with its literal default [1]. *)
Definition month_multiselect (df : DataFrame) (chosen : option (list (option Z)))
  : result (list (option Z)) :=
  multiselect cell_eqb (available_months df) [Some 1] chosen.

(** [month == k] for an integer literal [k]: false on NaN. *)
Definition month_is (month : option Z) (k : Z) : bool :=
  match month with
  | Some z => z =? k
  | None => false
  end.

(** Lines 53-61. *)
Definition max_day (selected_months : list (option Z)) : Z :=
  match selected_months with
  | [month] =>
      if existsb (month_is month) [4; 6; 9; 11] then 30
      else if month_is month 2 then 28
      else 31
  | _ => 31
  end.

(** ** Filter *)

(** [col >= k] and [col <= k] on one cell: false on NaN. *)
Definition cell_ge (v : option Z) (k : Z) : bool :=
  match v with
  | Some z => k <=? z
  | None => false
  end.

Definition cell_le (v : option Z) (k : Z) : bool :=
  match v with
  | Some z => z <=? k
  | None => false
  end.

(** [col.isin(values)] on one cell. *)
Definition isin (v : option Z) (values : list (option Z)) : bool :=
  existsb (cell_eqb v) values.

(** The boolean mask of lines 72-76, at one row. *)
Definition mask (year_range : Z * Z) (selected_months : list (option Z))
    (selected_day_range : Z * Z) (r : Row) : bool :=
  cell_ge (Year r) (fst year_range)
  && cell_le (Year r) (snd year_range)
  && isin (Month r) selected_months
  && cell_ge (Day r) (fst selected_day_range)
  && cell_le (Day r) (snd selected_day_range).

(** Lines 71-77: [df[mask]]. *)
Definition filtered_df (df : DataFrame) (year_range : Z * Z)
    (selected_months : list (option Z)) (selected_day_range : Z * Z) : DataFrame :=
  {| header := header df;
     rows := filter (mask year_range selected_months selected_day_range) (rows df) |}.

(** [df.empty]. *)
Definition empty (df : DataFrame) : bool :=
  match rows df with
  | [] => true
  | _ :: _ => false
  end.

(** ** Reductions over a measurement column

    Each skips NaN, as pandas does by default.  Sums are taken from left to
    right; numpy adds pairwise and [groupby] with a compensation term, which
    is the same number in exact arithmetic and can differ in the last bits in
    binary64. *)

Definition dropna (l : list F) : list F := filter (fun x => negb (fisna x)) l.

(** [Series.count()]. *)
Definition count (l : list F) : nat := List.length (dropna l).

(** [sum()] of a float64 column: zero on an empty column. *)
Definition sum (l : list F) : F := fold_left fadd (dropna l) (fofZ 0).



(** [mean()]: NaN when no value is left. *)
Definition mean (l : list F) : F :=
  match count l with
  | O => fnan
  | n => fdiv (sum l) (fofZ (Z.of_nat n))
  end.

(** [std()] with [ddof = 1]: the root of the squared deviations from the mean
    over [count - 1]; NaN when [count <= ddof]. *)
Definition std (l : list F) : F :=
  let n := count l in
  if (n <=? 1)%nat then fnan
  else
    let avg := fdiv (sum l) (fofZ (Z.of_nat n)) in
    let sqr := fold_left (fun acc x => fadd acc (fmul (fsub avg x) (fsub avg x)))
                         (dropna l) (fofZ 0) in
    fsqrt (fdiv sqr (fofZ (Z.of_nat n - 1))).

Definition fmin (l : list F) : F :=
  match dropna l with
  | [] => fnan
  | x :: xs => fold_left (fun m y => if fltb y m then y else m) xs x
  end.

Definition fmax (l : list F) : F :=
  match dropna l with
  | [] => fnan
  | x :: xs => fold_left (fun m y => if fltb m y then y else m) xs x
  end.

(** numpy's linear interpolation between two neighbouring order statistics. *)
Definition lerp (a b t : F) : F :=
  let diff_b_a := fsub b a in
  if fleb (fdiv (fofZ 1) (fofZ 2)) t
  then fsub b (fmul diff_b_a (fsub (fofZ 1) t))
  else fadd a (fmul diff_b_a t).

(** [quantile(k/4)] with linear interpolation: the virtual index is
    [(n - 1) * k / 4], split into its floor and its fraction. *)
Definition quantile4 (k : Z) (l : list F) : F :=
  let vs := sort_by fltb (dropna l) in
  match vs with
  | [] => fnan
  | _ :: _ =>
      let n := Z.of_nat (List.length vs) in
      let pos := k * (n - 1) in
      let previous := pos / 4 in
      let next := Z.min (previous + 1) (n - 1) in
      let gamma := fdiv (fofZ (pos mod 4)) (fofZ 4) in
      lerp (nth (Z.to_nat previous) vs fnan) (nth (Z.to_nat next) vs fnan) gamma
  end.

(** ** Statistics summary *)

(** One row of the table shown in the Statistics tab, in its column order. *)
Record Stats : Type := mkStats {
  Count : F;
  Mean : F;
  Std_Dev : F;
  Min : F;
  Q25 : F;
  Median : F;
  Q75 : F;
  Max : F;
  Total : F
}.

(** Lines 137-140 on one float64 column: [describe()], then the [sum] column.
    (For an int64 column the [sum] entry is [sum_int64] of its cells.) *)
Definition describe_sum (l : list F) : Stats :=
  {| Count := fofZ (Z.of_nat (count l));
     Mean := mean l;
     Std_Dev := std l;
     Min := fmin l;
     Q25 := quantile4 1 l;
     Median := quantile4 2 l;
     Q75 := quantile4 3 l;
     Max := fmax l;
     Total := sum l |}.

Definition stats_df (df : DataFrame) (selected_medications : list string)
  : result (list (string * Stats)) :=
  cols <- select df selected_medications ;;
  Ok (combine selected_medications (map describe_sum cols)).

(** ** Correlation *)

(** The running state of the single pass pandas makes over a pair of
    columns. *)
Record Welford : Type := mkWelford {
  nobs : Z;
  meanx : F;
  meany : F;
  ssqdmx : F;
  ssqdmy : F;
  covxy : F
}.

Definition welford_init : Welford :=
  mkWelford 0 (fofZ 0) (fofZ 0) (fofZ 0) (fofZ 0) (fofZ 0).

Definition welford_step (w : Welford) (v : F * F) : Welford :=
  let (vx, vy) := v in
  let n := nobs w + 1 in
  let dx := fsub vx (meanx w) in
  let dy := fsub vy (meany w) in
  let mx := fadd (meanx w) (fmul (fdiv (fofZ 1) (fofZ n)) dx) in
  let my := fadd (meany w) (fmul (fdiv (fofZ 1) (fofZ n)) dy) in
  {| nobs := n;
     meanx := mx;
     meany := my;
     ssqdmx := fadd (ssqdmx w) (fmul (fsub vx mx) dx);
     ssqdmy := fadd (ssqdmy w) (fmul (fsub vy my) dy);
     covxy := fadd (covxy w) (fmul (fsub vx mx) dy) |}.

(** The rows a cell of the matrix is computed from: those where both columns
    hold a finite value. *)
Definition complete_pairs (xs ys : list F) : list (F * F) :=
  filter (fun v => fisfinite (fst v) && fisfinite (snd v)) (combine xs ys).

Definition clip (val : F) : F :=
  if fltb (fofZ 1) val then fofZ 1
  else if fltb val (fofZ (-1)) then fofZ (-1)
  else val.

(** One cell of [corr()] (Pearson, [min_periods = 1]). *)
Definition corr_cell (xs ys : list F) : F :=
  let w := fold_left welford_step (complete_pairs xs ys) welford_init in
  if nobs w <? 1 then fnan
  else
    let divisor := fsqrt (fmul (ssqdmx w) (ssqdmy w)) in
    if negb (feqb divisor (fofZ 0)) then clip (fdiv (covxy w) divisor)
    else fnan.

(** The matrix: pandas computes the cells on and below the diagonal and
    stores each at both of its positions. *)
Definition corr_entry (cols : list (list F)) (i j : nat) : F :=
  if (j <=? i)%nat then corr_cell (nth i cols []) (nth j cols [])
  else corr_cell (nth j cols []) (nth i cols []).

Definition corr (cols : list (list F)) : list (list F) :=
  let K := seq 0 (List.length cols) in
  map (fun i => map (fun j => corr_entry cols i j) K) K.

(** Line 145. *)
Definition corr_matrix (df : DataFrame) (selected_medications : list string)
  : result (list (list F)) :=
  cols <- select df selected_medications ;;
  Ok (corr cols).

(** ** Weekday aggregation *)

Definition in_group (w : weekday) (r : Row) : bool :=
  match Weekday_Name r with
  | Some w' => weekday_eqb w' w
  | None => false
  end.

(** The rows of one group, in their order in the frame. *)
Definition group (df : DataFrame) (w : weekday) : DataFrame :=
  {| header := header df; rows := filter (in_group w) (rows df) |}.

Fixpoint distinct_from (seen l : list weekday) : list weekday :=
  match l with
  | [] => []
  | w :: l' =>
      if existsb (weekday_eqb w) seen then distinct_from seen l'
      else w :: distinct_from (w :: seen) l'
  end.

(** [groupby] orders its groups by key, here the weekday's name as text. *)
Definition name_ltb (a b : weekday) : bool :=
  String.ltb (day_name_text a) (day_name_text b).

(** The group keys: the distinct non-null names, sorted as text. *)
Definition group_keys (df : DataFrame) : list weekday :=
  sort_by name_ltb (distinct_from [] (nonnull (map Weekday_Name (rows df)))).

(** The means of the selected columns within one group. *)
Definition group_means (df : DataFrame) (selected_medications : list string)
    (w : weekday) : result (list F) :=
  cols <- select (group df w) selected_medications ;;
  Ok (map mean cols).

(** [groupby('Weekday Name')[selected].mean().reset_index()]. *)
Definition groupby_mean (df : DataFrame) (selected_medications : list string)
  : result (list (weekday * list F)) :=
  _ <- select df selected_medications ;;
  mapM (fun w => means <- group_means df selected_medications w ;; Ok (w, means))
       (group_keys df).

(** Line 118. *)
Definition weekday_order : list string :=
  ["Monday"; "Tuesday"; "Wednesday"; "Thursday"; "Friday"; "Saturday"; "Sunday"]%string.

(** The code [pd.Categorical] gives a name: its place among the categories,
    or none for a name that is not a category. *)
Definition category_code (w : weekday) : option nat :=
  index_of (day_name_text w) weekday_order.

(** The order [sort_values] uses on a categorical column: by code, a value
    with no code last. *)
Definition category_ltb (a b : weekday) : bool :=
  match category_code a, category_code b with
  | Some x, Some y => (x <? y)%nat
  | Some _, None => true
  | None, _ => false
  end.

(** Lines 116-120. *)
Definition weekday_df (df : DataFrame) (selected_medications : list string)
  : result (list (weekday * list F)) :=
  g <- groupby_mean df selected_medications ;;
  Ok (sort_by (fun a b => category_ltb (fst a) (fst b)) g).

(** ** Display *)

(** [Series.min()] and [Series.max()] on the [Date] column: [NaT] is skipped,
    and the result is [NaT] when nothing is left. *)
Definition date_min (df : DataFrame) : option Timestamp :=
  match nonnull (map Date (rows df)) with
  | [] => None
  | d :: ds => Some (fold_left (fun m x => if ts_ltb x m then x else m) ds d)
  end.

Definition date_max (df : DataFrame) : option Timestamp :=
  match nonnull (map Date (rows df)) with
  | [] => None
  | d :: ds => Some (fold_left (fun m x => if ts_ltb m x then x else m) ds d)
  end.

(** What the page shows.  Texts are the script's, without their pictographs;
    a chart or table carries the data handed to it (the statistics before
    their two-decimal rendering). *)
Inductive element : Type :=
| st_header (text : string)
| st_subheader (text : string)
| st_warning (text : string)
| st_write (text : string)
| st_markdown (text : string)
| st_expander_dataframe (label : string) (data : DataFrame)
| st_tabs (labels : list string)
| line_chart (x : list (option Timestamp)) (y : list (string * list F))
| bar_chart (data : list (weekday * list F)) (y : list string)
| stats_table (data : list (string * Stats))
| heatmap (data : list (list F)).

Definition no_data : element :=
  st_warning "No data available for the selected filters.".

(** Lines 97-111. *)
Definition tab_time_series (fdf : DataFrame) (selected_medications : list string)
  : result (list element) :=
  if negb (empty fdf) then
    cols <- select fdf selected_medications ;;
    Ok [st_subheader "Time Series Analysis";
        line_chart (map Date (rows fdf)) (combine selected_medications cols)]
  else Ok [st_subheader "Time Series Analysis"; no_data].

(** Lines 113-132. *)
Definition tab_weekly_pattern (fdf : DataFrame) (selected_medications : list string)
  : result (list element) :=
  if negb (empty fdf) then
    wd <- weekday_df fdf selected_medications ;;
    Ok [st_subheader "Weekly Usage Pattern"; bar_chart wd selected_medications]
  else Ok [st_subheader "Weekly Usage Pattern"; no_data].

(** Lines 134-156. *)
Definition tab_statistics (fdf : DataFrame) (selected_medications : list string)
  : result (list element) :=
  if negb (empty fdf) then
    stats <- stats_df fdf selected_medications ;;
    m <- corr_matrix fdf selected_medications ;;
    Ok [st_subheader "Statistical Summary"; stats_table stats;
        st_subheader "Medication Correlations"; heatmap m]
  else Ok [st_subheader "Statistical Summary"; no_data].

(** Lines 80-156: the page below the sidebar, for the filtered frame. *)
Definition main_display (fdf : DataFrame) (selected_medications : list string)
  : result (list element) :=
  match selected_medications with
  | [] =>
      Ok [st_header "Medication Usage Analysis";
          st_warning "Please select at least one medication to analyze."]
  | _ :: _ =>
      first <- strftime (date_min fdf) ;;
      last <- strftime (date_max fdf) ;;
      t1 <- tab_time_series fdf selected_medications ;;
      t2 <- tab_weekly_pattern fdf selected_medications ;;
      t3 <- tab_statistics fdf selected_medications ;;
      Ok ([st_header "Medication Usage Analysis";
           st_subheader "Filtered Data Summary";
           st_write ("Date Range: " ++ first ++ " to " ++ last);
           st_write ("Total Records: " ++ format_count (List.length (rows fdf)));
           st_expander_dataframe "View Filtered Data" fdf;
           st_tabs ["Time Series"; "Weekly Pattern"; "Statistics"]%string]
          ++ t1 ++ t2 ++ t3)
  end.

(** Lines 70-156: the filter, then the page. *)
Definition display (df : DataFrame) (selected_medications : list string)
    (year_range : Z * Z) (selected_months : list (option Z))
    (selected_day_range : Z * Z) : result (list element) :=
  main_display (filtered_df df year_range selected_months selected_day_range)
               selected_medications.

(** What the user has set on the four controls; [None] is a control left at
    its default. *)
Record Interaction : Type := mkInteraction {
  chosen_medications : option (list string);
  chosen_years : option (Z * Z);
  chosen_months : option (list (option Z));
  chosen_days : option (Z * Z)
}.

(** Lines 28-160: one run of the script on the loaded frame. *)
Definition script (df : DataFrame) (ui : Interaction) : result (list element) :=
  selected_medications <-
    multiselect String.eqb (medication_columns df)
      (firstn 1 (medication_columns df)) (chosen_medications ui) ;;
  bounds <- year_bounds df ;;
  year_range <- st_slider (fst bounds) (snd bounds) (chosen_years ui) ;;
  selected_months <- month_multiselect df (chosen_months ui) ;;
  selected_day_range <- st_slider 1 (max_day selected_months) (chosen_days ui) ;;
  page <- display df selected_medications year_range selected_months selected_day_range ;;
  Ok (page ++ [st_markdown "---";
               st_markdown "Developed by [Your Name] - [GitHub Repo](#) - v1.0"]).

End Dashboard.

Arguments Row : clear implicits.
Arguments DataFrame : clear implicits.
Arguments CsvRecord : clear implicits.
Arguments Stats : clear implicits.
Arguments Welford : clear implicits.
Arguments element : clear implicits.

(** * Vocabulary of the properties

    The notions the specification uses to say what the code computes, and
    the sample files the claims are tried on. *)

(** [l1] is [l2] with some elements left out: the same elements, each taken
    from its own place, in the same order. *)
Inductive subseq {A : Type} : list A -> list A -> Prop :=
| subseq_nil : subseq [] []
| subseq_skip : forall x l1 l2, subseq l1 l2 -> subseq l1 (x :: l2)
| subseq_keep : forall x l1 l2, subseq l1 l2 -> subseq (x :: l1) (x :: l2).

#[local] Hint Constructors subseq : core.

(** The week in its canonical order. *)
Definition week : list weekday :=
  [Monday; Tuesday; Wednesday; Thursday; Friday; Saturday; Sunday].

Definition member (l : list weekday) (w : weekday) : bool :=
  existsb (weekday_eqb w) l.

Section Vocabulary.

Context {F : Type} `{Float64 F}.

(** The three conditions of the filter, as the specification words them. *)
Definition year_in_range (year_range : Z * Z) (r : Row F) : Prop :=
  exists y, Year r = Some y /\ fst year_range <= y <= snd year_range.

Definition month_selected (selected_months : list (option Z)) (r : Row F) : Prop :=
  In (Month r) selected_months.

Definition day_in_range (selected_day_range : Z * Z) (r : Row F) : Prop :=
  exists d, Day r = Some d /\ fst selected_day_range <= d <= snd selected_day_range.

(** The cells of a measurement column, for a name the frame has. *)
Definition column_values (df : DataFrame F) (name : string) : list F :=
  match index_of name (header df) with
  | Some i => map (fun r => nth i (cells r) fnan) (rows df)
  | None => []
  end.

(** The weekday has at least one row in the frame. *)
Definition present (df : DataFrame F) (w : weekday) : bool :=
  existsb (in_group w) (rows df).

(** The table the specification describes: one row for each day of the week
    that is present, in the week's order, holding the mean of each selected
    column over that day's rows. *)
Definition weekday_means (df : DataFrame F) (selected_medications : list string)
  : list (weekday * list F) :=
  map (fun w => (w, map (fun m => mean (column_values (group df w) m))
                        selected_medications))
      (filter (present df) week).

(** The sum of the squared deviations of the non-null cells from [avg]. *)
Definition squared_deviations (avg : F) (l : list F) : F :=
  fold_left (fun acc x => fadd acc (fmul (fsub avg x) (fsub avg x)))
            (dropna l) (fofZ 0).

End Vocabulary.

(** ** The pass of [corr] over a pair of columns, on reals *)

Local Open Scope R_scope.

Definition Rsum (xs : list R) : R := fold_right Rplus 0 xs.

Record RWelford : Type := mkRW {
  rn : Z;
  rmx : R;
  rmy : R;
  rsx : R;
  rsy : R;
  rcxy : R
}.

Definition rw_step (w : RWelford) (p : R * R) : RWelford :=
  let n := (rn w + 1)%Z in
  let dx := fst p - rmx w in
  let dy := snd p - rmy w in
  let mx := rmx w + 1 / IZR n * dx in
  let my := rmy w + 1 / IZR n * dy in
  {| rn := n;
     rmx := mx;
     rmy := my;
     rsx := rsx w + (fst p - mx) * dx;
     rsy := rsy w + (snd p - my) * dy;
     rcxy := rcxy w + (fst p - mx) * dy |}.

Definition rw_init : RWelford := mkRW 0 0 0 0 0 0.

Definition embed (w : RWelford) : Welford xreal :=
  mkWelford (rn w) (Some (rmx w)) (Some (rmy w))
            (Some (rsx w)) (Some (rsy w)) (Some (rcxy w)).

Definition some_pair (p : R * R) : xreal * xreal := (Some (fst p), Some (snd p)).

(** The rows of two columns where both cells are numbers. *)
Fixpoint real_pairs (xs ys : list xreal) : list (R * R) :=
  match xs, ys with
  | Some x :: xs', Some y :: ys' => (x, y) :: real_pairs xs' ys'
  | _ :: xs', _ :: ys' => real_pairs xs' ys'
  | _, _ => []
  end.

(** One column's share of the pass. *)
Definition w1_step (st : Z * R * R) (x : R) : Z * R * R :=
  let '(n, m, s) := st in
  let m' := m + 1 / IZR (n + 1) * (x - m) in
  ((n + 1)%Z, m', s + (x - m') * (x - m)).

Local Close Scope R_scope.

(** ** Further vocabulary *)

Section FurtherVocabulary.

Context {F : Type} `{Float64 F}.

(** The derived fields of a row are those of its [Date]. *)
Definition well_derived (r : Row F) : Prop := r = derive (Date r) (cells r).

(** The filter parameters [p] admit every row the parameters [q] admit. *)
Definition range_within (a b : Z * Z) : Prop := fst b <= fst a /\ snd a <= snd b.

(** The page for a non-empty frame, a non-empty selection of its columns and
    the two rendered dates. *)
Definition full_page (fdf : DataFrame F) (selected_medications : list string)
    (first last : string) : list (element F) :=
  [st_header "Medication Usage Analysis";
   st_subheader "Filtered Data Summary";
   st_write ("Date Range: " ++ first ++ " to " ++ last);
   st_write ("Total Records: " ++ format_count (List.length (rows fdf)));
   st_expander_dataframe "View Filtered Data" fdf;
   st_tabs ["Time Series"; "Weekly Pattern"; "Statistics"]%string;
   st_subheader "Time Series Analysis";
   line_chart (map Date (rows fdf))
              (map (fun m => (m, column_values fdf m)) selected_medications);
   st_subheader "Weekly Usage Pattern";
   bar_chart (weekday_means fdf selected_medications) selected_medications;
   st_subheader "Statistical Summary";
   stats_table (map (fun m => (m, describe_sum (column_values fdf m)))
                    selected_medications);
   st_subheader "Medication Correlations";
   heatmap (corr (map (column_values fdf) selected_medications))]%string.

(** The widget values of a run: what the user chose, or the defaults. *)
Definition widget_medications (df : DataFrame F) (ui : Interaction) : list string :=
  match chosen_medications ui with
  | Some c => c
  | None => firstn 1 (medication_columns df)
  end.

Definition widget_months (ui : Interaction) : list (option Z) :=
  match chosen_months ui with
  | Some c => c
  | None => [Some 1]
  end.

Definition footer : list (element F) :=
  [st_markdown "---";
   st_markdown "Developed by [Your Name] - [GitHub Repo](#) - v1.0"].

End FurtherVocabulary.

(** Dates in calendar order. *)
Definition ts_le (a b : Timestamp) : Prop := ts_ltb b a = false.

(** The value linear interpolation gives at position [p / 4] of the ascending
    list [v]. *)
Definition interpolate (v : list R) (p : Z) : R :=
  let n := Z.of_nat (List.length v) in
  let lo := nth (Z.to_nat (p / 4)) v 0%R in
  let hi := nth (Z.to_nat (Z.min (p / 4 + 1) (n - 1))) v 0%R in
  (lo + (hi - lo) * (IZR (p mod 4) / 4))%R.

(** A correlation within its range, in the code's floats: neither above 1 nor
    below -1 (NaN included, which compares false). *)
Definition within_unit (c : float) : Prop :=
  PrimFloat.ltb 1 c = false /\ PrimFloat.ltb c (-1) = false.

(** ** Pearson's coefficient

    The textbook definition, on a list of pairs of reals: the sum of the
    products of the deviations from the two means, over the root of the
    product of the two sums of squared deviations. *)

Local Open Scope R_scope.

Definition co_moment (ps : list (R * R)) (f g : R * R -> R) : R :=
  let mf := Rsum (map f ps) / INR (List.length ps) in
  let mg := Rsum (map g ps) / INR (List.length ps) in
  Rsum (map (fun p => (f p - mf) * (g p - mg)) ps).

Definition pearson (ps : list (R * R)) : R :=
  co_moment ps fst snd / sqrt (co_moment ps fst fst * co_moment ps snd snd).

Local Close Scope R_scope.

(** ** Sample data *)

(** A date parser for texts of the form [YYYY-MM-DD], one of the forms
    [pd.to_datetime] reads; any other text is unparseable. *)
Definition digit_value (c : ascii) : option Z :=
  let n := Z.of_nat (nat_of_ascii c) in
  if (48 <=? n) && (n <=? 57) then Some (n - 48) else None.

Fixpoint digits_value (acc : Z) (cs : list ascii) : option Z :=
  match cs with
  | [] => Some acc
  | c :: cs' =>
      match digit_value c with
      | Some d => digits_value (10 * acc + d) cs'
      | None => None
      end
  end.

Definition is_leap (y : Z) : bool :=
  (y mod 4 =? 0) && (negb (y mod 100 =? 0) || (y mod 400 =? 0)).

Definition days_in_month (y m : Z) : Z :=
  if m =? 2 then (if is_leap y then 29 else 28)
  else if existsb (Z.eqb m) [4; 6; 9; 11] then 30 else 31.

Definition iso_to_datetime (s : string) : option Timestamp :=
  match list_ascii_of_string s with
  | [y1; y2; y3; y4; "-"%char; m1; m2; "-"%char; d1; d2] =>
      match digits_value 0 [y1; y2; y3; y4], digits_value 0 [m1; m2],
            digits_value 0 [d1; d2] with
      | Some y, Some m, Some d =>
          if (1 <=? m) && (m <=? 12) && (1 <=? d) && (d <=? days_in_month y m)
          then Some (mkTimestamp y m d) else None
      | _, _, _ => None
      end
  | _ => None
  end.

(** Ten records from January and February 2023, with values 1 to 10 for
    [DrugA]. *)
Definition scenario_csv : list (CsvRecord float) :=
  [mkCsv "2023-01-05" [1; 20]%float; mkCsv "2023-01-10" [2; 18]%float;
   mkCsv "2023-01-15" [3; 19]%float; mkCsv "2023-01-20" [4; 15]%float;
   mkCsv "2023-01-25" [5; 16]%float; mkCsv "2023-01-30" [6; 12]%float;
   mkCsv "2023-02-04" [7; 13]%float; mkCsv "2023-02-09" [8; 10]%float;
   mkCsv "2023-02-14" [9; 11]%float; mkCsv "2023-02-19" [10; 7]%float].

Definition scenario : DataFrame float :=
  load_data iso_to_datetime ["DrugA"; "DrugB"]%string scenario_csv.

(** The same file with one record whose date is not a date. *)
Definition dirty_csv : list (CsvRecord float) :=
  mkCsv "n/a" [99; 99]%float :: scenario_csv.

Definition dirty : DataFrame float :=
  load_data iso_to_datetime ["DrugA"; "DrugB"]%string dirty_csv.

(** The scenario preceded by a record of the year before. *)
Definition history_csv : list (CsvRecord float) :=
  mkCsv "2022-12-31" [0; 21]%float :: scenario_csv.

Definition history : DataFrame float :=
  load_data iso_to_datetime ["DrugA"; "DrugB"]%string history_csv.

(** A file with February records only, from two years. *)
Definition february : DataFrame float :=
  load_data iso_to_datetime ["DrugA"]%string
    [mkCsv "2022-02-10" [6]%float; mkCsv "2023-02-04" [7]%float;
     mkCsv "2023-02-09" [8]%float].

Definition untouched : Interaction := mkInteraction None None None None.

(** January of the scenario: its six January rows. *)
Definition january : DataFrame float :=
  filtered_df scenario (2023, 2023) [Some 1] (1, 31).

(** The whole scenario as a filtered frame. *)
Definition both_months : DataFrame float :=
  filtered_df scenario (2023, 2023) [Some 1; Some 2] (1, 31).

(** A file whose only record has a date that does not parse. *)
Definition undated : DataFrame float :=
  load_data iso_to_datetime ["DrugA"]%string [mkCsv "n/a" [1]%float].

(** The one row of 5 January. *)
Definition fifth_of_january : DataFrame float :=
  filtered_df history (2022, 2023) [Some 1] (5, 5).

(** * Properties *)

(** ** Rendering *)

(** The fuel [format_count] gives is enough: more changes nothing. *)
Lemma thousands_enough (fuel : nat) (n : Z) :
  0 <= n < 1000 ^ (Z.of_nat fuel + 1) ->
  thousands (S fuel) n = thousands fuel n.
Proof.
  revert n. induction fuel as [|fuel IH]; intros n Hn.
  - cbn [thousands]. change (1000 ^ (Z.of_nat 0 + 1)) with 1000 in Hn.
    destruct (Z.ltb_spec n 1000); [reflexivity | lia].
  - change (thousands (S (S fuel)) n)
      with (if n <? 1000 then plain3 n
            else (thousands (S fuel) (n / 1000) ++ "," ++ pad3 (n mod 1000))%string).
    change (thousands (S fuel) n)
      with (if n <? 1000 then plain3 n
            else (thousands fuel (n / 1000) ++ "," ++ pad3 (n mod 1000))%string).
    destruct (n <? 1000); [reflexivity|].
    rewrite IH; [reflexivity|].
    split; [apply Z.div_pos; lia|].
    apply Z.div_lt_upper_bound; [lia|].
    replace (Z.of_nat (S fuel) + 1) with (Z.succ (Z.of_nat fuel + 1)) in Hn by lia.
    rewrite Z.pow_succ_r in Hn by lia. lia.
Qed.

Lemma format_count_enough (n k : nat) :
  thousands (n + k) (Z.of_nat n) = format_count n.
Proof.
  unfold format_count. induction k as [|k IH].
  - now rewrite Nat.add_0_r.
  - rewrite Nat.add_succ_r, thousands_enough; [exact IH|].
    split; [lia|].
    assert (Hpow : forall m : nat, Z.of_nat m < 1000 ^ (Z.of_nat m + 1)).
    { intros m. induction m as [|m IHm]; [reflexivity|].
      replace (Z.of_nat (S m) + 1) with (Z.succ (Z.of_nat m + 1)) by lia.
      rewrite Z.pow_succ_r by lia. lia. }
    eapply Z.lt_le_trans; [apply Hpow|].
    apply Z.pow_le_mono_r; lia.
Qed.

(** ** The filter *)

Lemma filter_subseq {A : Type} (f : A -> bool) (l : list A) :
  subseq (filter f l) l.
Proof.
  induction l as [|x l IH]; simpl; [constructor|].
  destruct (f x); auto.
Qed.

(** The places a filter keeps: strictly increasing positions of the source
    list whose elements are, in order, the filter's result. *)
Lemma filter_positions {A : Type} (f : A -> bool) (l : list A) :
  exists idx : list nat,
    StronglySorted lt idx
    /\ Forall (fun i => (i < List.length l)%nat) idx
    /\ map Some (filter f l) = map (nth_error l) idx.
Proof.
  induction l as [|x l (idx & Hs & Hb & He)]; simpl.
  - exists []. repeat split; constructor.
  - assert (Hs' : StronglySorted lt (map S idx)).
    { clear -Hs. induction Hs as [|i idx Hs IH Hi]; simpl; constructor; auto.
      rewrite Forall_forall in *. intros j Hj.
      apply in_map_iff in Hj as (k & <- & Hk). apply Hi in Hk. lia. }
    assert (Hb' : Forall (fun i => (i < S (List.length l))%nat) (map S idx)).
    { rewrite Forall_forall in *. intros j Hj.
      apply in_map_iff in Hj as (k & <- & Hk). apply Hb in Hk. lia. }
    assert (He' : map Some (filter f l) = map (nth_error (x :: l)) (map S idx)).
    { rewrite map_map. exact He. }
    destruct (f x).
    + exists (O :: map S idx). repeat split.
      * constructor; [exact Hs'|].
        rewrite Forall_forall. intros j Hj.
        apply in_map_iff in Hj as (k & <- & _). lia.
      * constructor; [lia | exact Hb'].
      * simpl. now rewrite He'.
    + exists (map S idx). repeat split; assumption.
Qed.

Lemma cell_eqb_eq (a b : option Z) : cell_eqb a b = true <-> a = b.
Proof.
  destruct a as [x|], b as [y|]; simpl; split; intro E;
    try congruence; try reflexivity.
  - apply Z.eqb_eq in E. now subst.
  - inversion E. apply Z.eqb_refl.
Qed.

Lemma isin_In (v : option Z) (values : list (option Z)) :
  isin v values = true <-> In v values.
Proof.
  unfold isin. rewrite existsb_exists. split.
  - intros (x & Hx & E). apply cell_eqb_eq in E. now subst.
  - intros Hv. exists v. split; [assumption | now apply cell_eqb_eq].
Qed.

Lemma mapM_ok {A B : Type} (f : A -> result B) (g : A -> B) (l : list A) :
  (forall a, In a l -> f a = Ok (g a)) -> mapM f l = Ok (map g l).
Proof.
  induction l as [|a l IH]; simpl; intros Hf; [reflexivity|].
  rewrite (Hf a) by now left. simpl.
  rewrite IH by (intros; apply Hf; now right). reflexivity.
Qed.

Section FilterProperties.

Context {F : Type} `{Float64 F}.

Lemma cell_ge_le_range (v : option Z) (lo hi : Z) :
  cell_ge v lo && cell_le v hi = true <-> exists z, v = Some z /\ lo <= z <= hi.
Proof.
  destruct v as [z|]; simpl.
  - rewrite andb_true_iff, !Z.leb_le. split.
    + intros [? ?]. exists z. split; [reflexivity | lia].
    + intros (z' & E & ?). inversion E. subst. lia.
  - split; [discriminate | intros (? & ? & _); discriminate].
Qed.

Lemma mask_true (yr : Z * Z) (months : list (option Z)) (dr : Z * Z) (r : Row F) :
  mask yr months dr r = true
  <-> year_in_range yr r /\ month_selected months r /\ day_in_range dr r.
Proof.
  unfold mask, year_in_range, month_selected, day_in_range.
  rewrite <- !andb_assoc.
  rewrite (andb_assoc (cell_ge (Year r) _)), andb_true_iff, cell_ge_le_range.
  rewrite andb_true_iff, isin_In, cell_ge_le_range.
  reflexivity.
Qed.

(** C1.  For every year range, month set and day range, the filtered frame
    holds exactly the rows of the loaded frame whose [Year] lies in the
    inclusive year range, whose [Month] is among the selected months and whose
    [Day] lies in the inclusive day range: a row is kept when, and only when,
    it meets the three conditions, so every row of the result meets them and
    every row of the loaded frame that meets them is in the result.  The
    columns are kept, and the frame every view is computed from is this one
    whatever medications are selected. *)
Theorem filtered_df_exact (df : DataFrame F) (year_range : Z * Z)
    (selected_months : list (option Z)) (selected_day_range : Z * Z) :
  let fdf := filtered_df df year_range selected_months selected_day_range in
  let meets (r : Row F) :=
    year_in_range year_range r
    /\ month_selected selected_months r
    /\ day_in_range selected_day_range r in
  (forall r : Row F, In r (rows fdf) <-> In r (rows df) /\ meets r)
  /\ Forall meets (rows fdf)
  /\ (exists keep : Row F -> bool,
         (forall r, keep r = true <-> meets r)
         /\ rows fdf = filter keep (rows df))
  /\ header fdf = header df
  /\ (forall selected_medications : list string,
         display df selected_medications year_range selected_months selected_day_range
         = main_display fdf selected_medications).
Proof.
  cbv zeta. split; [|split; [|split; [|split]]].
  - intros r. unfold filtered_df. cbn [rows].
    rewrite filter_In, mask_true. reflexivity.
  - rewrite Forall_forall. intros r Hr. unfold filtered_df in Hr. cbn [rows] in Hr.
    apply filter_In in Hr as [_ Hr]. now apply mask_true.
  - exists (mask year_range selected_months selected_day_range).
    split; [intros r; apply mask_true | reflexivity].
  - reflexivity.
  - intros meds. reflexivity.
Qed.

(** C10.  For every choice of filter parameters the filtered frame's rows are
    a sub-sequence of the loaded frame's rows: there are strictly increasing
    positions of the loaded frame whose rows, unchanged and in that order,
    are the filtered rows. *)
Theorem filtered_df_subsequence (df : DataFrame F) (year_range : Z * Z)
    (selected_months : list (option Z)) (selected_day_range : Z * Z) :
  let fdf := filtered_df df year_range selected_months selected_day_range in
  subseq (rows fdf) (rows df)
  /\ header fdf = header df
  /\ exists idx : list nat,
       StronglySorted lt idx
       /\ Forall (fun i => (i < List.length (rows df))%nat) idx
       /\ map Some (rows fdf) = map (nth_error (rows df)) idx.
Proof.
  cbv zeta. unfold filtered_df. cbn [rows header].
  split; [apply filter_subseq|]. split; [reflexivity|].
  apply filter_positions.
Qed.

End FilterProperties.

(** C3.  The day slider's upper bound: 30 when the one selected month is 4,
    6, 9 or 11; 28 when the one selected month is 2 (no year enters the
    computation); 31 in every other case, in particular when no month or
    more than one month is selected. *)
Theorem max_day_cap :
  (forall m : Z, In m [4; 6; 9; 11] -> max_day [Some m] = 30)
  /\ max_day [Some 2] = 28
  /\ (forall selected_months : list (option Z),
         (forall m : Z, In m [2; 4; 6; 9; 11] -> selected_months <> [Some m]) ->
         max_day selected_months = 31)
  /\ max_day [] = 31
  /\ (forall (a b : option Z) (rest : list (option Z)), max_day (a :: b :: rest) = 31).
Proof.
  split; [|split; [|split; [|split]]].
  - intros m Hm. simpl in Hm.
    destruct Hm as [<-|[<-|[<-|[<-|[]]]]]; reflexivity.
  - reflexivity.
  - intros months Hno.
    destruct months as [|[m|] [|b rest]]; try reflexivity.
    unfold max_day. cbn [existsb month_is].
    destruct (Z.eqb_spec m 4) as [->|N4].
    { exfalso. apply (Hno 4); simpl; auto. }
    destruct (Z.eqb_spec m 6) as [->|N6].
    { exfalso. apply (Hno 6); simpl; auto. }
    destruct (Z.eqb_spec m 9) as [->|N9].
    { exfalso. apply (Hno 9); simpl; auto. }
    destruct (Z.eqb_spec m 11) as [->|N11].
    { exfalso. apply (Hno 11); simpl; auto 6. }
    destruct (Z.eqb_spec m 2) as [->|N2].
    { exfalso. apply (Hno 2); simpl; auto. }
    reflexivity.
  - reflexivity.
  - intros a b rest. reflexivity.
Qed.

Section DisplayProperties.

Context {F : Type} `{Float64 F}.

(** Each of the three tabs, taken alone, answers an empty frame with its
    subheader and the no-data warning, whatever the selection, even one
    that names no column of the frame. *)
Lemma tabs_handle_empty (fdf : DataFrame F) (selected_medications : list string) :
  empty fdf = true ->
  tab_time_series fdf selected_medications
    = Ok [st_subheader "Time Series Analysis"; no_data]
  /\ tab_weekly_pattern fdf selected_medications
    = Ok [st_subheader "Weekly Usage Pattern"; no_data]
  /\ tab_statistics fdf selected_medications
    = Ok [st_subheader "Statistical Summary"; no_data].
Proof.
  intros He. unfold tab_time_series, tab_weekly_pattern, tab_statistics.
  rewrite He. repeat split.
Qed.

Lemma date_min_empty (fdf : DataFrame F) : empty fdf = true -> date_min fdf = None.
Proof.
  unfold empty, date_min. destruct (rows fdf); [reflexivity | discriminate].
Qed.

(** The summary line above the tabs is reached first: on an empty frame the
    earliest date is [NaT], and rendering it raises. *)
Lemma main_display_empty_raises (fdf : DataFrame F) (m : string) (ms : list string) :
  empty fdf = true ->
  main_display fdf (m :: ms) = Raise (ValueError "NaTType does not support strftime").
Proof.
  intros He. unfold main_display. rewrite (date_min_empty fdf He). reflexivity.
Qed.

Lemma default_medication_accepted (df : DataFrame F) (chosen : option (list string)) :
  multiselect String.eqb (medication_columns df) (firstn 1 (medication_columns df)) chosen
  = Ok (match chosen with Some c => c | None => firstn 1 (medication_columns df) end).
Proof.
  unfold multiselect.
  destruct (medication_columns df) as [|c cs]; [reflexivity|].
  cbn [firstn forallb existsb]. now rewrite String.eqb_refl.
Qed.

(** C8.  Loading keeps every record and cannot raise.  A record whose date
    text does not parse is loaded with a null [Date]; a loaded row with a null
    [Date] has null [Day], [Month] and [Year], fails the mask, and is in no
    filtered frame, whatever the filter parameters. *)
Theorem unparseable_dates_excluded (to_datetime : string -> option Timestamp)
    (hdr : list string) (csv : list (CsvRecord F)) :
  let df := load_data to_datetime hdr csv in
  List.length (rows df) = List.length csv
  /\ (forall rec : CsvRecord F,
         In rec csv -> to_datetime (date_text rec) = None ->
         In (derive None (csv_cells rec)) (rows df))
  /\ (forall r : Row F,
         In r (rows df) -> Date r = None ->
         Day r = None /\ Month r = None /\ Year r = None
         /\ forall (year_range : Z * Z) (selected_months : list (option Z))
                   (selected_day_range : Z * Z),
              mask year_range selected_months selected_day_range r = false
              /\ ~ In r (rows (filtered_df df year_range selected_months
                                           selected_day_range))).
Proof.
  cbv zeta. unfold load_data. cbn [rows]. split; [|split].
  - apply length_map.
  - intros rec Hin Hnone. apply in_map_iff. exists rec.
    split; [now rewrite Hnone | assumption].
  - intros r Hin Hdate. apply in_map_iff in Hin as (rec & <- & _).
    unfold derive in *. cbn [Date Day Month Year] in *. rewrite Hdate.
    cbn [option_map]. repeat split.
    unfold filtered_df. cbn [rows]. rewrite filter_In.
    intros [_ Hmask]. unfold mask in Hmask. cbn in Hmask. discriminate.
Qed.

End DisplayProperties.

(** ** The month control *)

Lemma insert_by_In {A : Type} (lt : A -> A -> bool) (x y : A) (l : list A) :
  In y (insert_by lt x l) <-> y = x \/ In y l.
Proof.
  induction l as [|z l IH]; simpl.
  - intuition auto.
  - destruct (lt x z); simpl; [intuition auto|].
    rewrite IH. intuition auto.
Qed.

Lemma fold_insert_In {A : Type} (lt : A -> A -> bool) (y : A) (l acc : list A) :
  In y (fold_left (fun acc x => insert_by lt x acc) l acc) <-> In y l \/ In y acc.
Proof.
  revert acc. induction l as [|x l IH]; intros acc; simpl.
  - intuition auto.
  - rewrite IH, insert_by_In. intuition auto.
Qed.

Lemma sort_by_In {A : Type} (lt : A -> A -> bool) (y : A) (l : list A) :
  In y (sort_by lt l) <-> In y l.
Proof.
  unfold sort_by. rewrite fold_insert_In. simpl. intuition auto.
Qed.

Lemma insert_by_length {A : Type} (lt : A -> A -> bool) (x : A) (l : list A) :
  List.length (insert_by lt x l) = S (List.length l).
Proof.
  induction l as [|z l IH]; simpl; [reflexivity|].
  destruct (lt x z); simpl; congruence.
Qed.

Lemma insert_by_perm {A : Type} (lt : A -> A -> bool) (x : A) (l : list A) :
  Permutation (x :: l) (insert_by lt x l).
Proof.
  induction l as [|z l IH]; simpl; [reflexivity|].
  destruct (lt x z); [reflexivity|].
  rewrite perm_swap. now constructor.
Qed.

Lemma sort_by_perm {A : Type} (lt : A -> A -> bool) (l : list A) :
  Permutation l (sort_by lt l).
Proof.
  unfold sort_by.
  enough (G : forall acc, Permutation (l ++ acc)
                            (fold_left (fun acc x => insert_by lt x acc) l acc)).
  { specialize (G []). now rewrite app_nil_r in G. }
  induction l as [|x l IH]; intros acc; simpl; [reflexivity|].
  rewrite <- IH. rewrite <- insert_by_perm. apply Permutation_middle.
Qed.

Lemma unique_from_In (seen l : list (option Z)) (y : option Z) :
  In y (unique_from seen l) <-> In y l /\ ~ In y seen.
Proof.
  revert seen. induction l as [|x l IH]; intros seen; simpl.
  - intuition auto.
  - destruct (existsb (cell_eqb x) seen) eqn:E.
    + apply existsb_exists in E as (z & Hz & Ez).
      apply cell_eqb_eq in Ez. subst z.
      rewrite IH. split.
      * intros [? ?]. auto.
      * intros [[->|Hy] Hn]; [contradiction | auto].
    + assert (Hx : ~ In x seen).
      { intros Hin. apply Bool.not_true_iff_false in E. apply E.
        apply existsb_exists. exists x. split; [assumption | now apply cell_eqb_eq]. }
      simpl. rewrite IH. simpl. split.
      * intros [<-|[Hy Hn]]; [auto|]. split; [auto|]. intros Hs. apply Hn. auto.
      * intros [[<-|Hy] Hn]; [auto|].
        destruct (cell_eqb x y) eqn:Exy.
        { left. now apply cell_eqb_eq. }
        right. split; [assumption|]. intros [->|Hs]; [|contradiction].
        rewrite (proj2 (cell_eqb_eq y y) eq_refl) in Exy. discriminate.
Qed.

Lemma unique_from_NoDup (seen l : list (option Z)) : NoDup (unique_from seen l).
Proof.
  revert seen. induction l as [|x l IH]; intros seen; simpl; [constructor|].
  destruct (existsb (cell_eqb x) seen); [apply IH|].
  constructor; [|apply IH].
  rewrite unique_from_In. intros [_ Hn]. apply Hn. now left.
Qed.

Lemma available_months_In (F : Type) (df : DataFrame F) (m : option Z) :
  In m (available_months df) <-> exists r, In r (rows df) /\ Month r = m.
Proof.
  unfold available_months, sorted, unique.
  rewrite sort_by_In, unique_from_In, in_map_iff. simpl.
  split.
  - intros [(r & E & Hr) _]. eauto.
  - intros (r & Hr & E). split; [eauto | tauto].
Qed.

Lemma available_months_NoDup (F : Type) (df : DataFrame F) :
  NoDup (available_months df).
Proof.
  unfold available_months, sorted, unique.
  eapply Permutation_NoDup; [apply sort_by_perm | apply unique_from_NoDup].
Qed.

(** C4, as the code has it.  The month control offers the distinct [Month]
    values of the loaded frame, each once, and asks for the default selection
    [1]; on a frame with a January row the control accepts that default, and
    it returns the default until the user chooses. *)
Theorem month_control_options (F : Type) (df : DataFrame F) :
  (forall m : option Z,
      In m (available_months df) <-> exists r, In r (rows df) /\ Month r = m)
  /\ NoDup (available_months df)
  /\ (forall chosen : option (list (option Z)),
         (exists r, In r (rows df) /\ Month r = Some 1) ->
         month_multiselect df chosen
         = Ok (match chosen with Some c => c | None => [Some 1] end)).
Proof.
  split; [|split].
  - intros m. apply available_months_In.
  - apply available_months_NoDup.
  - intros chosen Hjan. apply available_months_In in Hjan.
    unfold month_multiselect, multiselect. cbn [forallb].
    assert (E : existsb (cell_eqb (Some 1)) (available_months df) = true).
    { apply existsb_exists. exists (Some 1). split; [assumption | reflexivity]. }
    rewrite E. reflexivity.
Qed.

(** ** Column selection *)

Section SelectionProperties.

Context {F : Type} `{Float64 F}.

Lemma index_of_In (s : string) (l : list string) :
  In s l -> exists i, index_of s l = Some i.
Proof.
  induction l as [|x l IH]; simpl; [tauto|].
  intros Hin. destruct (String.eqb_spec s x) as [->|N]; [eauto|].
  destruct Hin as [->|Hin]; [congruence|].
  destruct (IH Hin) as (i & ->). simpl. eauto.
Qed.

Lemma column_ok (df : DataFrame F) (name : string) :
  In name (medication_columns df) -> column df name = Ok (column_values df name).
Proof.
  unfold medication_columns, column, column_values.
  rewrite filter_In. intros [Hin Hres].
  apply negb_true_iff in Hres. rewrite Hres.
  destruct (index_of_In name (header df) Hin) as (i & ->). reflexivity.
Qed.

Lemma select_ok (df : DataFrame F) (names : list string) :
  (forall m, In m names -> In m (medication_columns df)) ->
  select df names = Ok (map (column_values df) names).
Proof.
  intros Hall. unfold select. apply mapM_ok.
  intros m Hm. apply column_ok. auto.
Qed.

End SelectionProperties.

(** ** Weekday aggregation *)

Lemma weekday_eqb_eq (a b : weekday) : weekday_eqb a b = true <-> a = b.
Proof. destruct a, b; simpl; split; congruence. Qed.

Lemma weekday_eqb_refl (a : weekday) : weekday_eqb a a = true.
Proof. now apply weekday_eqb_eq. Qed.

Lemma member_In (l : list weekday) (w : weekday) : member l w = true <-> In w l.
Proof.
  unfold member. rewrite existsb_exists. split.
  - intros (x & Hx & E). apply weekday_eqb_eq in E. now subst.
  - intros Hw. exists w. split; [assumption | apply weekday_eqb_refl].
Qed.

Lemma category_ltb_asym (a b : weekday) :
  category_ltb a b = true -> category_ltb b a = false.
Proof. destruct a, b; vm_compute; congruence. Qed.

Lemma category_ltb_irrefl (a : weekday) : category_ltb a a = false.
Proof. destruct a; reflexivity. Qed.

Lemma week_sorted : StronglySorted (fun a b => category_ltb a b = true) week.
Proof. unfold week. repeat constructor. Qed.

(** Inserting a new element into the kept part of a sorted list gives the
    kept part with that element added. *)
Lemma insert_filter (P : weekday -> bool) (x : weekday) (c : list weekday) :
  StronglySorted (fun a b => category_ltb a b = true) c ->
  In x c -> P x = false ->
  insert_by category_ltb x (filter P c)
  = filter (fun w => P w || weekday_eqb w x) c.
Proof.
  intros Hs. induction Hs as [|z c Hs IH Hz]; intros Hin HP; [contradiction|].
  rewrite Forall_forall in Hz.
  destruct (weekday_eqb z x) eqn:E.
  - apply weekday_eqb_eq in E. subst z. cbn [filter].
    rewrite HP, weekday_eqb_refl. cbn [orb].
    assert (Hrest : filter (fun w => P w || weekday_eqb w x) c = filter P c).
    { apply filter_ext_in. intros w Hw.
      destruct (weekday_eqb w x) eqn:Ew; [|now rewrite orb_false_r].
      apply weekday_eqb_eq in Ew. subst w.
      apply Hz in Hw. rewrite category_ltb_irrefl in Hw. discriminate. }
    rewrite Hrest.
    destruct (filter P c) as [|y l] eqn:Ef; [reflexivity|].
    assert (Hy : In y c).
    { assert (Hy : In y (filter P c)) by (rewrite Ef; now left).
      now apply filter_In in Hy. }
    cbn [insert_by]. now rewrite (Hz y Hy).
  - destruct Hin as [->|Hin]; [rewrite weekday_eqb_refl in E; discriminate|].
    cbn [filter]. rewrite E, orb_false_r.
    destruct (P z).
    + cbn [insert_by]. rewrite (category_ltb_asym z x (Hz x Hin)).
      now rewrite IH.
    + now apply IH.
Qed.

Lemma sort_from_filter (l : list weekday) (P : weekday -> bool) :
  NoDup l -> (forall x, In x l -> P x = false) ->
  fold_left (fun acc x => insert_by category_ltb x acc) l (filter P week)
  = filter (fun w => P w || member l w) week.
Proof.
  revert P. induction l as [|x l IH]; intros P Hnd HP; cbn [fold_left].
  - apply filter_ext. intros w. now rewrite orb_false_r.
  - inversion Hnd as [|? ? Hx Hnd']; subst.
    rewrite insert_filter;
      [| apply week_sorted | destruct x; simpl; tauto | apply HP; now left].
    rewrite IH; [| assumption |].
    + apply filter_ext. intros w. unfold member. cbn [existsb].
      now rewrite orb_assoc.
    + intros y Hy. rewrite HP by now right. cbn [orb].
      destruct (weekday_eqb y x) eqn:E; [|reflexivity].
      apply weekday_eqb_eq in E. subst y. contradiction.
Qed.

(** Sorting distinct weekdays by category code lists the week's days that
    occur, in the week's order. *)
Lemma sort_by_category (l : list weekday) :
  NoDup l -> sort_by category_ltb l = filter (member l) week.
Proof.
  intros Hnd. unfold sort_by.
  change (@nil weekday) with (filter (fun _ => false) week).
  rewrite sort_from_filter; [reflexivity | assumption | reflexivity].
Qed.

Lemma insert_by_map {A B : Type} (f : A -> B) (lt : A -> A -> bool)
    (lt' : B -> B -> bool) (x : A) (l : list A) :
  (forall a b, lt' (f a) (f b) = lt a b) ->
  insert_by lt' (f x) (map f l) = map f (insert_by lt x l).
Proof.
  intros Hlt. induction l as [|y l IH]; simpl; [reflexivity|].
  rewrite Hlt. destruct (lt x y); simpl; [reflexivity | now rewrite IH].
Qed.

Lemma sort_by_map {A B : Type} (f : A -> B) (lt : A -> A -> bool)
    (lt' : B -> B -> bool) (l : list A) :
  (forall a b, lt' (f a) (f b) = lt a b) ->
  sort_by lt' (map f l) = map f (sort_by lt l).
Proof.
  intros Hlt. unfold sort_by.
  change (@nil B) with (map f []). generalize (@nil A) as acc.
  induction l as [|x l IH]; intros acc; simpl; [reflexivity|].
  rewrite (insert_by_map f lt lt') by assumption. apply IH.
Qed.

Lemma distinct_from_In (seen l : list weekday) (y : weekday) :
  In y (distinct_from seen l) <-> In y l /\ ~ In y seen.
Proof.
  revert seen. induction l as [|x l IH]; intros seen; simpl.
  - intuition auto.
  - destruct (existsb (weekday_eqb x) seen) eqn:E.
    + apply (member_In seen x) in E. rewrite IH. split.
      * intros [? ?]. auto.
      * intros [[->|Hy] Hn]; [contradiction | auto].
    + assert (Hx : ~ In x seen).
      { intros Hin. apply (member_In seen x) in Hin.
        unfold member in Hin. congruence. }
      simpl. rewrite IH. simpl. split.
      * intros [<-|[Hy Hn]]; [auto|]. split; [auto|]. intros Hs. apply Hn. auto.
      * intros [[<-|Hy] Hn]; [auto|].
        destruct (weekday_eqb x y) eqn:Exy.
        { left. now apply weekday_eqb_eq. }
        right. split; [assumption|]. intros [->|Hs]; [|contradiction].
        rewrite weekday_eqb_refl in Exy. discriminate.
Qed.

Lemma distinct_from_NoDup (seen l : list weekday) : NoDup (distinct_from seen l).
Proof.
  revert seen. induction l as [|x l IH]; intros seen; simpl; [constructor|].
  destruct (existsb (weekday_eqb x) seen); [apply IH|].
  constructor; [|apply IH].
  rewrite distinct_from_In. intros [_ Hn]. apply Hn. now left.
Qed.

Section WeekdayProperties.

Context {F : Type} `{Float64 F}.

Lemma nonnull_In {A : Type} (a : A) (l : list (option A)) :
  In a (nonnull l) <-> In (Some a) l.
Proof.
  unfold nonnull. rewrite in_flat_map. split.
  - intros ([b|] & Hb & Ha); simpl in Ha; [|contradiction].
    destruct Ha as [->|[]]. assumption.
  - intros Ha. exists (Some a). split; [assumption | now left].
Qed.

Lemma present_In (df : DataFrame F) (w : weekday) :
  present df w = true <-> In (Some w) (map Weekday_Name (rows df)).
Proof.
  unfold present. rewrite existsb_exists, in_map_iff. unfold in_group. split.
  - intros (r & Hr & E). exists r. split; [|assumption].
    destruct (Weekday_Name r) as [w'|]; [|discriminate].
    apply weekday_eqb_eq in E. now subst.
  - intros (r & E & Hr). exists r. split; [assumption|].
    rewrite E. apply weekday_eqb_refl.
Qed.

Lemma group_keys_NoDup (df : DataFrame F) : NoDup (group_keys df).
Proof.
  unfold group_keys.
  eapply Permutation_NoDup; [apply sort_by_perm | apply distinct_from_NoDup].
Qed.

Lemma group_keys_member (df : DataFrame F) (w : weekday) :
  member (group_keys df) w = present df w.
Proof.
  apply Bool.eq_iff_eq_true.
  rewrite member_In, present_In. unfold group_keys.
  rewrite sort_by_In, distinct_from_In, nonnull_In. simpl. tauto.
Qed.

Lemma weekday_df_explicit (df : DataFrame F) (selected_medications : list string) :
  (forall m, In m selected_medications -> In m (medication_columns df)) ->
  weekday_df df selected_medications = Ok (weekday_means df selected_medications).
Proof.
  intros Hall. unfold weekday_df, groupby_mean, weekday_means.
  rewrite (select_ok df) by assumption. cbn [bind].
  rewrite (mapM_ok _ (fun w => (w, map (fun m => mean (column_values (group df w) m))
                                       selected_medications))).
  - cbn [bind]. f_equal.
    rewrite (sort_by_map _ category_ltb) by reflexivity.
    rewrite sort_by_category by apply group_keys_NoDup.
    f_equal. apply filter_ext. apply group_keys_member.
  - intros w _. unfold group_means.
    rewrite (select_ok (group df w)) by assumption.
    cbn [bind]. now rewrite map_map.
Qed.



End WeekdayProperties.

(** ** Statistics summary *)

Lemma combine_map_self {A B : Type} (f : A -> B) (l : list A) :
  combine l (map f l) = map (fun a => (a, f a)) l.
Proof. induction l as [|a l IH]; simpl; congruence. Qed.

Section StatisticsProperties.

Context {F : Type} `{Float64 F}.

Lemma stats_df_explicit (df : DataFrame F) (selected_medications : list string) :
  (forall m, In m selected_medications -> In m (medication_columns df)) ->
  stats_df df selected_medications
  = Ok (map (fun m => (m, describe_sum (column_values df m))) selected_medications).
Proof.
  intros Hall. unfold stats_df. rewrite select_ok by assumption. cbn [bind].
  rewrite map_map. now rewrite combine_map_self.
Qed.


Lemma std_many (l : list F) :
  (2 <= count l)%nat ->
  std l = fsqrt (fdiv (squared_deviations (mean l) l)
                      (fofZ (Z.of_nat (count l) - 1))).
Proof.
  intros Hc. unfold std, squared_deviations, mean.
  destruct (Nat.leb_spec (count l) 1); [lia|].
  destruct (count l) as [|n] eqn:E; [lia | reflexivity].
Qed.

Lemma mean_some (l : list F) :
  (1 <= count l)%nat -> mean l = fdiv (sum l) (fofZ (Z.of_nat (count l))).
Proof.
  intros Hc. unfold mean. destruct (count l); [lia | reflexivity].
Qed.

End StatisticsProperties.

(** ** Exact arithmetic

    The statistical formulas, read at the carrier [xreal]: every operation on
    non-NaN operands is the real one. *)

Local Open Scope R_scope.

Lemma dropna_exact (l : list xreal) : dropna l = map Some (nonnull l).
Proof.
  induction l as [|[x|] l IH]; simpl; [reflexivity | | assumption].
  now rewrite <- IH.
Qed.

Lemma count_exact (l : list xreal) : count l = List.length (nonnull l).
Proof. unfold count. now rewrite dropna_exact, length_map. Qed.

Lemma fold_add_exact (xs : list R) (a : R) :
  fold_left (@fadd xreal exact) (map Some xs) (Some a) = Some (a + Rsum xs).
Proof.
  revert a. induction xs as [|x xs IH]; intros a; simpl.
  - now rewrite Rplus_0_r.
  - rewrite IH. f_equal. ring.
Qed.

Lemma sum_exact (l : list xreal) : sum l = Some (Rsum (nonnull l)).
Proof.
  unfold sum. rewrite dropna_exact. cbn [fofZ exact].
  rewrite fold_add_exact. f_equal. ring.
Qed.

Lemma IZR_pos_neq (n : Z) : (0 < n)%Z -> IZR n <> 0.
Proof. intros Hn E. apply eq_IZR in E. lia. Qed.

Lemma xdiv_some (a b : R) : b <> 0 -> xdiv (Some a) (Some b) = Some (a / b).
Proof.
  intros Hb. unfold xdiv. destruct (Req_dec_T b 0); [contradiction | reflexivity].
Qed.

Lemma xsqrt_some (a : R) : 0 <= a -> xsqrt (Some a) = Some (sqrt a).
Proof.
  intros Ha. unfold xsqrt. destruct (Rlt_dec a 0); [lra | reflexivity].
Qed.

(** The mean is the sum of the non-null cells over their number. *)
Lemma mean_exact (l : list xreal) :
  nonnull l <> [] ->
  mean l = Some (Rsum (nonnull l) / INR (List.length (nonnull l))).
Proof.
  intros Hne. unfold mean. rewrite count_exact, sum_exact.
  destruct (List.length (nonnull l)) as [|n] eqn:E.
  - destruct (nonnull l); [congruence | discriminate].
  - cbn [fofZ fdiv exact]. rewrite xdiv_some by (apply IZR_pos_neq; lia).
    now rewrite <- INR_IZR_INZ.
Qed.

(** numpy's interpolation is the linear one. *)
Lemma lerp_exact (a b t : R) :
  lerp (Some a) (Some b) (Some t) = Some (a + (b - a) * t).
Proof.
  unfold lerp. cbn [fofZ fdiv fleb fsub fadd fmul exact xlift2 xcmp].
  rewrite xdiv_some by lra. cbn [xcmp].
  destruct (Rleb (1 / 2) t); f_equal; ring.
Qed.

Lemma fold_sq_exact (avg : R) (xs : list R) (a : R) :
  fold_left (fun acc x => @fadd xreal exact acc
                            (fmul (fsub (Some avg) x) (fsub (Some avg) x)))
            (map Some xs) (Some a)
  = Some (a + Rsum (map (fun x => (x - avg) * (x - avg)) xs)).
Proof.
  revert a. induction xs as [|x xs IH]; intros a; simpl.
  - now rewrite Rplus_0_r.
  - rewrite IH. f_equal. ring.
Qed.

Lemma Rsum_squares_nonneg (avg : R) (xs : list R) :
  0 <= Rsum (map (fun x => (x - avg) * (x - avg)) xs).
Proof.
  induction xs as [|x xs IH]; simpl; [lra|].
  pose proof (Rle_0_sqr (x - avg)) as Hsq. unfold Rsqr in Hsq. lra.
Qed.

(** The standard deviation is the sample one: the root of the squared
    deviations from the mean over [n - 1]. *)
Lemma std_exact (l : list xreal) :
  (2 <= List.length (nonnull l))%nat ->
  let xs := nonnull l in
  let n := INR (List.length xs) in
  let mu := Rsum xs / n in
  std l = Some (sqrt (Rsum (map (fun x => (x - mu) * (x - mu)) xs) / (n - 1))).
Proof.
  intros Hn. cbv zeta. unfold std. rewrite count_exact, sum_exact, dropna_exact.
  destruct (Nat.leb_spec (List.length (nonnull l)) 1) as [|_]; [lia|].
  cbn [fofZ fdiv fsqrt exact].
  rewrite xdiv_some by (apply IZR_pos_neq; lia).
  rewrite fold_sq_exact.
  rewrite xdiv_some by (apply IZR_pos_neq; lia).
  rewrite <- INR_IZR_INZ, minus_IZR, <- INR_IZR_INZ, Rplus_0_l.
  apply xsqrt_some.
  apply Rmult_le_pos; [apply Rsum_squares_nonneg|].
  apply Rlt_le, Rinv_0_lt_compat.
  assert (2 <= INR (List.length (nonnull l))) by (apply (le_INR 2); lia).
  lra.
Qed.

(** *** The single pass over a pair of columns, on reals *)

Lemma complete_pairs_exact (xs ys : list xreal) :
  complete_pairs xs ys = map some_pair (real_pairs xs ys).
Proof.
  unfold complete_pairs. revert ys.
  induction xs as [|[x|] xs IH]; intros [|[y|] ys]; simpl;
    try reflexivity; try apply IH.
  now rewrite IH.
Qed.

Lemma welford_step_exact (w : RWelford) (p : R * R) :
  (0 <= rn w)%Z -> welford_step (embed w) (some_pair p) = embed (rw_step w p).
Proof.
  intros Hn. unfold welford_step, embed, rw_step, some_pair.
  cbn [nobs meanx meany ssqdmx ssqdmy covxy rn rmx rmy rsx rsy rcxy].
  cbn [fofZ fdiv fsub fadd fmul exact xlift2].
  rewrite xdiv_some by (apply IZR_pos_neq; lia).
  reflexivity.
Qed.

Lemma rw_fold_n (ps : list (R * R)) (w : RWelford) :
  rn (fold_left rw_step ps w) = (rn w + Z.of_nat (List.length ps))%Z.
Proof.
  revert w. induction ps as [|p ps IH]; intros w; cbn [fold_left List.length].
  - lia.
  - rewrite IH. cbn [rw_step rn]. lia.
Qed.

Lemma welford_fold_exact (ps : list (R * R)) (w : RWelford) :
  (0 <= rn w)%Z ->
  fold_left welford_step (map some_pair ps) (embed w) = embed (fold_left rw_step ps w).
Proof.
  revert w. induction ps as [|p ps IH]; intros w Hn; cbn [map fold_left].
  - reflexivity.
  - rewrite welford_step_exact by assumption. apply IH. cbn [rw_step rn]. lia.
Qed.

Lemma rw_fold_x (ps : list (R * R)) (w : RWelford) :
  let w' := fold_left rw_step ps w in
  (rn w', rmx w', rsx w') = fold_left w1_step (map fst ps) (rn w, rmx w, rsx w).
Proof.
  cbv zeta. revert w. induction ps as [|p ps IH]; intros w; cbn [map fold_left].
  - reflexivity.
  - rewrite IH. reflexivity.
Qed.

Lemma rw_fold_y (ps : list (R * R)) (w : RWelford) :
  let w' := fold_left rw_step ps w in
  (rn w', rmy w', rsy w') = fold_left w1_step (map snd ps) (rn w, rmy w, rsy w).
Proof.
  cbv zeta. revert w. induction ps as [|p ps IH]; intros w; cbn [map fold_left].
  - reflexivity.
  - rewrite IH. reflexivity.
Qed.

(** On a column paired with itself the three accumulators are one. *)
Lemma rw_fold_diag (xs : list R) (w : RWelford) :
  rmx w = rmy w -> rsx w = rsy w -> rsx w = rcxy w ->
  let w' := fold_left rw_step (map (fun x => (x, x)) xs) w in
  rsy w' = rsx w' /\ rcxy w' = rsx w'.
Proof.
  cbv zeta. revert w. induction xs as [|x xs IH]; intros w Hm Hs Hc; cbn [map fold_left].
  - split; congruence.
  - apply IH; unfold rw_step; cbn [rmx rmy rsx rsy rcxy fst snd];
      rewrite <- ?Hm, <- ?Hs, <- ?Hc; reflexivity.
Qed.

Lemma w1_step_increment (n : Z) (m s x : R) :
  (0 <= n)%Z ->
  let '(_, _, s') := w1_step (n, m, s) x in
  s' = s + (x - m) * (x - m) * (IZR n / IZR (n + 1)).
Proof.
  intros Hn. unfold w1_step. rewrite plus_IZR.
  assert (IZR n + 1 <> 0).
  { rewrite <- plus_IZR. apply IZR_pos_neq. lia. }
  field. assumption.
Qed.

Lemma w1_fold_mono (xs : list R) (n : Z) (m s : R) :
  (0 <= n)%Z ->
  let '(_, _, s') := fold_left w1_step xs (n, m, s) in s <= s'.
Proof.
  revert n m s. induction xs as [|x xs IH]; intros n m s Hn; cbn [fold_left].
  - lra.
  - pose proof (w1_step_increment n m s x Hn) as Hinc.
    destruct (w1_step (n, m, s) x) as [[n' m'] s'] eqn:E.
    assert (Hn' : n' = (n + 1)%Z) by (unfold w1_step in E; congruence).
    specialize (IH n' m' s' ltac:(lia)).
    destruct (fold_left w1_step xs (n', m', s')) as [[n'' m''] s''].
    assert (0 <= (x - m) * (x - m) * (IZR n / IZR (n + 1))).
    { apply Rmult_le_pos.
      - pose proof (Rle_0_sqr (x - m)) as Hsq. unfold Rsqr in Hsq. exact Hsq.
      - apply Rmult_le_pos; [apply IZR_le; lia|].
        apply Rlt_le, Rinv_0_lt_compat, IZR_lt. lia. }
    lra.
Qed.

(** A run of cells equal to the current mean leaves the mean and the
    accumulator as they are. *)
Lemma w1_fold_constant (xs : list R) (n : Z) (c s : R) :
  (0 <= n)%Z -> Forall (eq c) xs ->
  fold_left w1_step xs (n, c, s) = ((n + Z.of_nat (List.length xs))%Z, c, s).
Proof.
  intros Hn Hall. revert n s Hn.
  induction Hall as [|x xs <- Hall IH]; intros n s Hn; cbn [fold_left List.length].
  - now rewrite Z.add_0_r.
  - assert (E : w1_step (n, c, s) c = ((n + 1)%Z, c, s)).
    { unfold w1_step. f_equal; [f_equal|]; ring. }
    rewrite E, IH by lia. f_equal. f_equal. lia.
Qed.

Lemma w1_first (c : R) : w1_step (0%Z, 0, 0) c = (1%Z, c, 0).
Proof. unfold w1_step. cbn [Z.add]. f_equal; [f_equal|]; field. Qed.

(** A column all of whose cells are equal accumulates nothing. *)
Lemma w1_fold_all_equal (xs : list R) :
  (forall a b, In a xs -> In b xs -> a = b) ->
  let '(_, _, s) := fold_left w1_step xs (0%Z, 0, 0) in s = 0.
Proof.
  intros Heq. destruct xs as [|c xs]; cbn [fold_left]; [reflexivity|].
  rewrite w1_first, w1_fold_constant; [reflexivity | lia |].
  rewrite Forall_forall. intros x Hx. apply Heq; simpl; auto.
Qed.

Lemma first_different (c : R) (l : list R) :
  (exists d, In d l /\ d <> c) ->
  exists pre d post, l = pre ++ d :: post /\ Forall (eq c) pre /\ d <> c.
Proof.
  induction l as [|x l IH]; intros (d & Hd & Hne); [contradiction|].
  destruct (Req_dec_T x c) as [->|Hx].
  - destruct Hd as [<-|Hd]; [contradiction|].
    destruct IH as (pre & d' & post & -> & Hpre & Hd'); [eauto|].
    exists (c :: pre), d', post. repeat split; auto.
  - exists [], x, l. repeat split; auto.
Qed.

(** A column with two different cells accumulates a positive amount. *)
Lemma w1_fold_positive (xs : list R) :
  (exists a b, In a xs /\ In b xs /\ a <> b) ->
  let '(_, _, s) := fold_left w1_step xs (0%Z, 0, 0) in 0 < s.
Proof.
  intros (a & b & Ha & Hb & Hab).
  destruct xs as [|c xs]; [contradiction|].
  assert (Hd : exists d, In d xs /\ d <> c).
  { destruct (Req_dec_T a c) as [->|Hac].
    - exists b. split; [|congruence]. destruct Hb as [<-|]; [contradiction | assumption].
    - exists a. split; [|assumption]. destruct Ha as [<-|]; [contradiction | assumption]. }
  destruct (first_different c xs Hd) as (pre & d & post & -> & Hpre & Hdc).
  cbn [fold_left]. rewrite w1_first, fold_left_app, w1_fold_constant by (lia || assumption).
  cbn [fold_left].
  set (n := (1 + Z.of_nat (List.length pre))%Z).
  pose proof (w1_step_increment n c 0 d ltac:(lia)) as Hinc.
  destruct (w1_step (n, c, 0) d) as [[n' m'] s'] eqn:E.
  assert (Hn' : n' = (n + 1)%Z) by (unfold w1_step in E; congruence).
  pose proof (w1_fold_mono post n' m' s' ltac:(lia)) as Hmono.
  destruct (fold_left w1_step post (n', m', s')) as [[n'' m''] s''].
  assert (0 < (d - c) * (d - c) * (IZR n / IZR (n + 1))).
  { apply Rmult_lt_0_compat.
    - assert (d - c <> 0) by lra. nra.
    - apply Rmult_lt_0_compat; [apply IZR_lt; lia|].
      apply Rinv_0_lt_compat, IZR_lt. lia. }
  lra.
Qed.

Lemma real_pairs_self (xs : list xreal) :
  real_pairs xs xs = map (fun x => (x, x)) (nonnull xs).
Proof.
  induction xs as [|[x|] xs IH]; simpl; [reflexivity | | assumption].
  now rewrite IH.
Qed.

Lemma real_pairs_fst (xs ys : list xreal) (a : R) :
  In a (map fst (real_pairs xs ys)) -> In (Some a) xs.
Proof.
  revert ys. induction xs as [|[x|] xs IH]; intros [|[y|] ys]; simpl;
    try tauto; try (intros Hin; right; eapply IH; eassumption).
  intros [->|Hin]; [now left | right; eapply IH; eassumption].
Qed.

Lemma real_pairs_snd (xs ys : list xreal) (b : R) :
  In b (map snd (real_pairs xs ys)) -> In (Some b) ys.
Proof.
  revert ys. induction xs as [|[x|] xs IH]; intros [|[y|] ys]; simpl;
    try tauto; try (intros Hin; right; eapply IH; eassumption).
  intros [->|Hin]; [now left | right; eapply IH; eassumption].
Qed.

(** A cell of the matrix in terms of the real pass. *)
Lemma corr_cell_exact (xs ys : list xreal) :
  let w := fold_left rw_step (real_pairs xs ys) rw_init in
  corr_cell xs ys
  = if (rn w <? 1)%Z then None
    else if Reqb (sqrt (rsx w * rsy w)) 0 then None
         else clip (Some (rcxy w / sqrt (rsx w * rsy w))).
Proof.
  cbv zeta. unfold corr_cell. rewrite complete_pairs_exact.
  change (@welford_init xreal exact) with (embed rw_init).
  rewrite welford_fold_exact by (cbn; lia).
  set (w := fold_left rw_step (real_pairs xs ys) rw_init).
  unfold embed. cbn [nobs ssqdmx ssqdmy covxy].
  destruct (rn w <? 1)%Z; [reflexivity|].
  cbn [fmul fsqrt feqb fofZ fdiv exact xlift2].
  assert (Hx : 0 <= rsx w).
  { pose proof (rw_fold_x (real_pairs xs ys) rw_init) as E. cbv zeta in E.
    fold w in E. cbn [rw_init rn rmx rsx] in E.
    pose proof (w1_fold_mono (map fst (real_pairs xs ys)) 0 0 0 ltac:(lia)) as Hm.
    rewrite <- E in Hm. exact Hm. }
  assert (Hy : 0 <= rsy w).
  { pose proof (rw_fold_y (real_pairs xs ys) rw_init) as E. cbv zeta in E.
    fold w in E. cbn [rw_init rn rmy rsy] in E.
    pose proof (w1_fold_mono (map snd (real_pairs xs ys)) 0 0 0 ltac:(lia)) as Hm.
    rewrite <- E in Hm. exact Hm. }
  rewrite xsqrt_some by (apply Rmult_le_pos; assumption).
  cbn [xcmp]. unfold Reqb at 1.
  destruct (Req_dec_T (sqrt (rsx w * rsy w)) 0) as [E0|N0].
  - cbn [negb]. unfold Reqb. destruct (Req_dec_T _ 0); [reflexivity | contradiction].
  - cbn [negb]. unfold Reqb. destruct (Req_dec_T _ 0); [contradiction|].
    now rewrite xdiv_some.
Qed.

Lemma clip_one : clip (Some 1) = Some 1.
Proof.
  unfold clip. cbn [fofZ fltb exact xcmp]. unfold Rltb.
  destruct (Rlt_dec 1 1); [lra|]. destruct (Rlt_dec 1 (-1)); [lra | reflexivity].
Qed.

(** A column with two different numbers correlates with itself at 1. *)
Lemma corr_cell_diag_one (xs : list xreal) :
  (exists a b, In (Some a) xs /\ In (Some b) xs /\ a <> b) ->
  corr_cell xs xs = Some 1.
Proof.
  intros (a & b & Ha & Hb & Hab).
  rewrite corr_cell_exact. cbv zeta. rewrite real_pairs_self.
  set (w := fold_left rw_step (map (fun x => (x, x)) (nonnull xs)) rw_init).
  destruct (rw_fold_diag (nonnull xs) rw_init eq_refl eq_refl eq_refl) as [Hsy Hc].
  fold w in Hsy, Hc.
  assert (Hpos : 0 < rsx w).
  { pose proof (rw_fold_x (map (fun x => (x, x)) (nonnull xs)) rw_init) as E.
    cbv zeta in E. fold w in E. cbn [rw_init rn rmx rsx] in E.
    rewrite map_map in E. cbn [fst] in E. rewrite map_id in E.
    assert (Hd : exists a b, In a (nonnull xs) /\ In b (nonnull xs) /\ a <> b).
    { exists a, b. rewrite !nonnull_In. auto. }
    pose proof (w1_fold_positive (nonnull xs) Hd) as Hp.
    rewrite <- E in Hp. exact Hp. }
  assert (Hn : (rn w <? 1)%Z = false).
  { apply Z.ltb_ge. unfold w. rewrite rw_fold_n. cbn [rw_init rn].
    rewrite length_map.
    assert (Hl : (0 < List.length (nonnull xs))%nat).
    { apply (nonnull_In a) in Ha. destruct (nonnull xs); [contradiction | simpl; lia]. }
    lia. }
  rewrite Hn, Hsy, Hc.
  rewrite sqrt_square by lra.
  unfold Reqb. destruct (Req_dec_T (rsx w) 0); [lra|].
  replace (rsx w / rsx w) with 1 by (field; lra).
  apply clip_one.
Qed.

(** A column whose numbers are all equal has no correlation with any
    column, itself included: the cell is NaN. *)
Lemma corr_cell_constant (xs ys : list xreal) :
  (forall a b, In (Some a) xs -> In (Some b) xs -> a = b) ->
  corr_cell xs ys = None /\ corr_cell ys xs = None.
Proof.
  intros Heq. split; rewrite corr_cell_exact; cbv zeta.
  - set (w := fold_left rw_step (real_pairs xs ys) rw_init).
    destruct (rn w <? 1)%Z; [reflexivity|].
    assert (E0 : rsx w = 0).
    { pose proof (rw_fold_x (real_pairs xs ys) rw_init) as E. cbv zeta in E.
      fold w in E. cbn [rw_init rn rmx rsx] in E.
      pose proof (w1_fold_all_equal (map fst (real_pairs xs ys))) as Hz.
      rewrite <- E in Hz. apply Hz.
      intros a b Ha Hb. apply Heq; eapply real_pairs_fst; eassumption. }
    rewrite E0, Rmult_0_l, sqrt_0. unfold Reqb.
    destruct (Req_dec_T 0 0); [reflexivity | contradiction].
  - set (w := fold_left rw_step (real_pairs ys xs) rw_init).
    destruct (rn w <? 1)%Z; [reflexivity|].
    assert (E0 : rsy w = 0).
    { pose proof (rw_fold_y (real_pairs ys xs) rw_init) as E. cbv zeta in E.
      fold w in E. cbn [rw_init rn rmy rsy] in E.
      pose proof (w1_fold_all_equal (map snd (real_pairs ys xs))) as Hz.
      rewrite <- E in Hz. apply Hz.
      intros a b Ha Hb. apply Heq; eapply real_pairs_snd; eassumption. }
    rewrite E0, Rmult_0_r, sqrt_0. unfold Reqb.
    destruct (Req_dec_T 0 0); [reflexivity | contradiction].
Qed.

Local Close Scope R_scope.

(** ** The correlation matrix, at every carrier *)

Section CorrelationProperties.

Context {F : Type} `{Float64 F}.

Lemma corr_entry_sym (cols : list (list F)) (i j : nat) :
  corr_entry cols i j = corr_entry cols j i.
Proof.
  unfold corr_entry.
  destruct (Nat.leb_spec j i), (Nat.leb_spec i j); try reflexivity; try lia.
  now replace j with i by lia.
Qed.

Lemma nth_map_seq {A : Type} (f : nat -> A) (d : A) (n i : nat) :
  (i < n)%nat -> nth i (map f (seq 0 n)) d = f i.
Proof.
  intros Hi. rewrite (nth_indep _ d (f O)) by now rewrite length_map, length_seq.
  rewrite map_nth, seq_nth by assumption. reflexivity.
Qed.

Lemma corr_nth (cols : list (list F)) (i j : nat) :
  (i < List.length cols)%nat -> (j < List.length cols)%nat ->
  nth j (nth i (corr cols) []) fnan = corr_entry cols i j.
Proof.
  intros Hi Hj. unfold corr.
  rewrite (nth_map_seq (fun i => map (fun j => corr_entry cols i j) _)) by assumption.
  now rewrite nth_map_seq.
Qed.

Lemma corr_shape (cols : list (list F)) :
  List.length (corr cols) = List.length cols
  /\ Forall (fun row => List.length row = List.length cols) (corr cols).
Proof.
  unfold corr. split.
  - now rewrite length_map, length_seq.
  - rewrite Forall_forall. intros row Hrow.
    apply in_map_iff in Hrow as (i & <- & _).
    now rewrite length_map, length_seq.
Qed.

Lemma combine_fst_snd {A B : Type} (l : list (A * B)) :
  combine (map fst l) (map snd l) = l.
Proof. induction l as [|[a b] l IH]; simpl; congruence. Qed.

Lemma filter_idem {A : Type} (f : A -> bool) (l : list A) :
  filter f (filter f l) = filter f l.
Proof.
  induction l as [|a l IH]; simpl; [reflexivity|].
  destruct (f a) eqn:E; simpl; rewrite ?E, IH; reflexivity.
Qed.

(** A cell reads its two columns only at the rows where both are finite. *)
Lemma corr_cell_complete (xs ys : list F) :
  corr_cell xs ys
  = corr_cell (map fst (complete_pairs xs ys)) (map snd (complete_pairs xs ys)).
Proof.
  unfold corr_cell. f_equal.
  assert (E : complete_pairs (map fst (complete_pairs xs ys))
                             (map snd (complete_pairs xs ys))
              = complete_pairs xs ys).
  { unfold complete_pairs at 1. rewrite combine_fst_snd.
    unfold complete_pairs. apply filter_idem. }
  now rewrite E.
Qed.

(** No row with both cells finite, or a zero divisor: the cell is NaN. *)
Lemma corr_cell_undefined (xs ys : list F) :
  let w := fold_left welford_step (complete_pairs xs ys) welford_init in
  (complete_pairs xs ys = [] -> corr_cell xs ys = fnan)
  /\ (feqb (fsqrt (fmul (ssqdmx w) (ssqdmy w))) (fofZ 0) = true ->
      corr_cell xs ys = fnan).
Proof.
  cbv zeta. unfold corr_cell. split.
  - intros ->. reflexivity.
  - intros ->. cbn [negb]. now destruct (nobs _ <? 1).
Qed.

Lemma corr_matrix_explicit (df : DataFrame F) (selected_medications : list string) :
  (forall m, In m selected_medications -> In m (medication_columns df)) ->
  corr_matrix df selected_medications
  = Ok (corr (map (column_values df) selected_medications)).
Proof.
  intros Hall. unfold corr_matrix. now rewrite select_ok.
Qed.

End CorrelationProperties.

(** ** Order statistics in exact arithmetic *)

Local Open Scope R_scope.

Lemma insert_by_sorted (x : R) (l : list R) :
  StronglySorted Rle l -> StronglySorted Rle (insert_by Rltb x l).
Proof.
  intros Hs. induction Hs as [|y l Hs IH Hy]; cbn [insert_by].
  - repeat constructor.
  - unfold Rltb at 1. destruct (Rlt_dec x y) as [Hlt|Hge].
    + constructor; [now constructor|].
      constructor; [lra|].
      rewrite Forall_forall in *. intros z Hz. specialize (Hy z Hz). lra.
    + constructor; [assumption|].
      rewrite Forall_forall in *. intros z Hz.
      apply insert_by_In in Hz as [->|Hz]; [lra | auto].
Qed.

Lemma sort_by_sorted (l : list R) : StronglySorted Rle (sort_by Rltb l).
Proof.
  unfold sort_by.
  enough (G : forall acc, StronglySorted Rle acc ->
                          StronglySorted Rle
                            (fold_left (fun acc x => insert_by Rltb x acc) l acc)).
  { apply G. constructor. }
  induction l as [|x l IH]; intros acc Hacc; cbn [fold_left]; [assumption|].
  apply IH. now apply insert_by_sorted.
Qed.

Lemma sort_exact (xs : list R) :
  sort_by (@fltb xreal exact) (map Some xs) = map Some (sort_by Rltb xs).
Proof. apply sort_by_map. reflexivity. Qed.

Lemma nth_map_some (l : list R) (i : nat) :
  (i < List.length l)%nat -> nth i (map Some l) (@fnan xreal exact) = Some (nth i l 0).
Proof.
  intros Hi. rewrite (nth_indep _ _ (Some 0)) by now rewrite length_map.
  apply map_nth.
Qed.

(** The quartiles by linear interpolation: with [v] the non-null cells in
    ascending order and [h = (n - 1) * k / 4], the value is
    [v[floor h] + (v[floor h + 1] - v[floor h]) * (h - floor h)]. *)
Lemma quantile4_exact (k : Z) (l : list xreal) :
  (1 <= k <= 3)%Z -> nonnull l <> [] ->
  let v := sort_by Rltb (nonnull l) in
  let n := Z.of_nat (List.length v) in
  let lo := Z.to_nat (k * (n - 1) / 4) in
  let hi := Z.to_nat (Z.min (k * (n - 1) / 4 + 1) (n - 1)) in
  quantile4 k l
  = Some (nth lo v 0 + (nth hi v 0 - nth lo v 0) * (IZR ((k * (n - 1)) mod 4) / 4)).
Proof.
  intros Hk Hne. cbv zeta. unfold quantile4.
  rewrite dropna_exact, sort_exact.
  assert (Hlen : List.length (sort_by Rltb (nonnull l)) = List.length (nonnull l)).
  { symmetry. apply Permutation_length, sort_by_perm. }
  destruct (map Some (sort_by Rltb (nonnull l))) as [|a t] eqn:E.
  { apply (f_equal (@List.length _)) in E. rewrite length_map, Hlen in E.
    destruct (nonnull l); [congruence | discriminate]. }
  rewrite <- E. clear E a t. rewrite length_map.
  set (v := sort_by Rltb (nonnull l)) in *.
  set (n := Z.of_nat (List.length v)).
  assert (Hn : (1 <= n)%Z).
  { unfold n. rewrite Hlen. destruct (nonnull l); [congruence | simpl; lia]. }
  assert (Hlo : (0 <= k * (n - 1) / 4 <= n - 1)%Z).
  { split; [apply Z.div_pos; nia|].
    apply Z.div_le_upper_bound; nia. }
  rewrite !nth_map_some by (fold n; lia).
  cbn [fofZ fdiv exact]. rewrite xdiv_some by lra.
  apply lerp_exact.
Qed.

Lemma fmin_exact (l : list xreal) :
  nonnull l <> [] ->
  exists m, fmin l = Some m /\ In m (nonnull l) /\ forall x, In x (nonnull l) -> m <= x.
Proof.
  intros Hne. unfold fmin. rewrite dropna_exact.
  destruct (nonnull l) as [|a xs]; [congruence|]. clear Hne. cbn [map].
  change (list R) in xs.
  enough (G : forall (xs : list R) (a : R),
             exists m,
               fold_left (fun m y => if @fltb xreal exact y m then y else m)
                         (map Some xs) (Some a) = Some m
               /\ In m (a :: xs) /\ forall x, In x (a :: xs) -> m <= x) by apply G.
  clear. induction xs as [|y xs IH]; intros a; cbn [map fold_left].
  - exists a. repeat split; [now left|]. intros x [<-|[]]. lra.
  - cbn [fltb exact xcmp]. unfold Rltb. destruct (Rlt_dec y a) as [Hlt|Hge].
    + destruct (IH y) as (m & E & Hin & Hmin). exists m. split; [exact E|]. split.
      * destruct Hin as [<-|Hin]; simpl; auto.
      * intros x [<-|[<-|Hx]]; [| apply Hmin; now left | apply Hmin; now right].
        specialize (Hmin y (or_introl eq_refl)). lra.
    + destruct (IH a) as (m & E & Hin & Hmin). exists m. split; [exact E|]. split.
      * destruct Hin as [<-|Hin]; simpl; auto.
      * intros x [<-|[<-|Hx]]; [apply Hmin; now left | | apply Hmin; now right].
        specialize (Hmin a (or_introl eq_refl)). lra.
Qed.

Lemma fmax_exact (l : list xreal) :
  nonnull l <> [] ->
  exists m, fmax l = Some m /\ In m (nonnull l) /\ forall x, In x (nonnull l) -> x <= m.
Proof.
  intros Hne. unfold fmax. rewrite dropna_exact.
  destruct (nonnull l) as [|a xs]; [congruence|]. clear Hne. cbn [map].
  change (list R) in xs.
  enough (G : forall (xs : list R) (a : R),
             exists m,
               fold_left (fun m y => if @fltb xreal exact m y then y else m)
                         (map Some xs) (Some a) = Some m
               /\ In m (a :: xs) /\ forall x, In x (a :: xs) -> x <= m) by apply G.
  clear. induction xs as [|y xs IH]; intros a; cbn [map fold_left].
  - exists a. repeat split; [now left|]. intros x [<-|[]]. lra.
  - cbn [fltb exact xcmp]. unfold Rltb. destruct (Rlt_dec a y) as [Hlt|Hge].
    + destruct (IH y) as (m & E & Hin & Hmax). exists m. split; [exact E|]. split.
      * destruct Hin as [<-|Hin]; simpl; auto.
      * intros x [<-|[<-|Hx]]; [| apply Hmax; now left | apply Hmax; now right].
        specialize (Hmax y (or_introl eq_refl)). lra.
    + destruct (IH a) as (m & E & Hin & Hmax). exists m. split; [exact E|]. split.
      * destruct Hin as [<-|Hin]; simpl; auto.
      * intros x [<-|[<-|Hx]]; [apply Hmax; now left | | apply Hmax; now right].
        specialize (Hmax a (or_introl eq_refl)). lra.
Qed.

Local Close Scope R_scope.

(** ** The sum of an int64 column *)






(** * The claims on the sample data *)

Local Open Scope string_scope.

(* Decimal literals below are the shortest that read back as the float. *)
#[local] Set Warnings "-inexact-float".


(** The scenario of the specification: the filter for January 2023 keeps the
    six January rows, in their order. *)
Example scenario_january :
  map Date (rows january)
  = map (fun d => Some (mkTimestamp 2023 1 d)) [5; 10; 15; 20; 25; 30]
  /\ map cells (rows january)
     = [[1; 20]; [2; 18]; [3; 19]; [4; 15]; [5; 16]; [6; 12]]%float.
Proof. split; vm_compute; reflexivity. Qed.

(** C2 on the code.  Clearing the month control leaves an empty frame; with
    the default medication selected the run ends in [ValueError], raised by
    the date-range line before any tab is reached.  The same happens for a
    day range that matches no February row. *)
Lemma empty_subset_raises :
  year_bounds history = Ok (2022, 2023)
  /\ empty (filtered_df history (2022, 2023) [] (1, 31)) = true
  /\ script history (mkInteraction None None (Some []) None)
     = Raise (ValueError "NaTType does not support strftime")
  /\ script history (mkInteraction None None (Some [Some 2]) (Some (20, 28)))
     = Raise (ValueError "NaTType does not support strftime")
  /\ display history ["DrugA"] (2022, 2023) [Some 2] (20, 28)
     = Raise (ValueError "NaTType does not support strftime").
Proof. repeat split; vm_compute; reflexivity. Qed.

(** C3 at month 4 and at months 1 and 2 together. *)
Lemma max_day_cap_witness :
  In 4 [4; 6; 9; 11] /\ max_day [Some 4] = 30 /\ max_day [Some 1; Some 2] = 31.
Proof.
  assert (H4 : In 4 [4; 6; 9; 11]) by (simpl; auto).
  split; [exact H4|]. split.
  - exact (proj1 max_day_cap 4 H4).
  - apply (proj1 (proj2 (proj2 max_day_cap))).
    intros m _. discriminate.
Defined.

(** C4: the options are not the twelve months.  A file with February records
    only offers month 2 alone, its default [1] is refused, and the run ends
    there. *)
Lemma month_options_follow_data :
  available_months february = [Some 2]
  /\ month_multiselect february None
     = Raise (StreamlitAPIException "Every Multiselect default value must exist in options")
  /\ script february untouched
     = Raise (StreamlitAPIException "Every Multiselect default value must exist in options").
Proof. repeat split; vm_compute; reflexivity. Qed.

(** C4, amended, on the scenario. *)
Lemma month_control_options_witness :
  (exists r, In r (rows scenario) /\ Month r = Some 1)
  /\ In (Some 2) (available_months scenario)
  /\ month_multiselect scenario None = Ok [Some 1]
  /\ month_multiselect scenario (Some [Some 2]) = Ok [Some 2].
Proof.
  assert (Hjan : exists r, In r (rows scenario) /\ Month r = Some 1).
  { exists (derive (Some (mkTimestamp 2023 1 5)) [1; 20]%float).
    split; [now left | reflexivity]. }
  destruct (month_control_options float scenario) as (Hin & _ & Hdef).
  split; [exact Hjan|]. split; [|split].
  - apply Hin. exists (derive (Some (mkTimestamp 2023 2 4)) [7; 13]%float).
    split; [simpl; auto 10 | reflexivity].
  - exact (Hdef None Hjan).
  - exact (Hdef (Some [Some 2]) Hjan).
Defined.


(** C8 on the file with a bad date. *)
Lemma unparseable_dates_excluded_witness :
  iso_to_datetime "n/a" = None
  /\ In (derive None [99; 99]%float) (rows dirty)
  /\ mask (2023, 2023) [Some 1; None] (1, 31) (derive None [99; 99]%float) = false
  /\ List.length (rows (filtered_df dirty (2023, 2023) [Some 1; Some 2; None] (1, 31)))
     = 10%nat.
Proof.
  destruct (unparseable_dates_excluded iso_to_datetime ["DrugA"; "DrugB"] dirty_csv)
    as (_ & Hload & Hout).
  assert (Hin : In (derive None [99; 99]%float) (rows dirty)).
  { apply (Hload (mkCsv "n/a" [99; 99]%float)); [now left | reflexivity]. }
  split; [reflexivity|]. split; [exact Hin|]. split.
  - destruct (Hout _ Hin eq_refl) as (_ & _ & _ & Hmask).
    exact (proj1 (Hmask (2023, 2023) [Some 1; None] (1, 31))).
  - vm_compute. reflexivity.
Defined.



(** * Further properties of the code *)

Local Close Scope string_scope.

(** ** Calendar order *)

Lemma ts_ltb_lex (a b : Timestamp) :
  ts_ltb a b = true
  <-> ts_year a < ts_year b
      \/ (ts_year a = ts_year b
          /\ (ts_month a < ts_month b
              \/ (ts_month a = ts_month b /\ ts_day a < ts_day b))).
Proof.
  unfold ts_ltb.
  rewrite !orb_true_iff, !andb_true_iff, !orb_true_iff, !andb_true_iff,
          !Z.ltb_lt, !Z.eqb_eq.
  reflexivity.
Qed.

Lemma ts_ltb_false (a b : Timestamp) :
  ts_ltb a b = false
  <-> ts_year b < ts_year a
      \/ (ts_year b = ts_year a
          /\ (ts_month b < ts_month a
              \/ (ts_month b = ts_month a /\ ts_day b <= ts_day a))).
Proof.
  rewrite <- Bool.not_true_iff_false, ts_ltb_lex. lia.
Qed.

Lemma ts_le_refl (a : Timestamp) : ts_le a a.
Proof. unfold ts_le. apply ts_ltb_false. lia. Qed.

Lemma ts_le_trans (a b c : Timestamp) : ts_le a b -> ts_le b c -> ts_le a c.
Proof. unfold ts_le. rewrite !ts_ltb_false. lia. Qed.

Lemma ts_le_total (a b : Timestamp) : ts_ltb a b = true -> ts_le a b.
Proof. unfold ts_le. rewrite ts_ltb_lex, ts_ltb_false. lia. Qed.

Lemma fold_earliest (ds : list Timestamp) (d : Timestamp) :
  let m := fold_left (fun m x => if ts_ltb x m then x else m) ds d in
  In m (d :: ds) /\ forall x, In x (d :: ds) -> ts_le m x.
Proof.
  cbv zeta. revert d. induction ds as [|y ds IH]; intros d; cbn [fold_left].
  - split; [now left|]. intros x [<-|[]]. apply ts_le_refl.
  - destruct (ts_ltb y d) eqn:E.
    + destruct (IH y) as [Hin Hle]. split.
      * destruct Hin as [<-|Hin]; simpl; auto.
      * intros x [<-|[<-|Hx]].
        -- eapply ts_le_trans; [apply Hle; now left | now apply ts_le_total].
        -- apply Hle. now left.
        -- apply Hle. now right.
    + destruct (IH d) as [Hin Hle]. split.
      * destruct Hin as [<-|Hin]; simpl; auto.
      * intros x [<-|[<-|Hx]].
        -- apply Hle. now left.
        -- eapply ts_le_trans; [apply Hle; now left | exact E].
        -- apply Hle. now right.
Qed.

Lemma fold_latest (ds : list Timestamp) (d : Timestamp) :
  let m := fold_left (fun m x => if ts_ltb m x then x else m) ds d in
  In m (d :: ds) /\ forall x, In x (d :: ds) -> ts_le x m.
Proof.
  cbv zeta. revert d. induction ds as [|y ds IH]; intros d; cbn [fold_left].
  - split; [now left|]. intros x [<-|[]]. apply ts_le_refl.
  - destruct (ts_ltb d y) eqn:E.
    + destruct (IH y) as [Hin Hle]. split.
      * destruct Hin as [<-|Hin]; simpl; auto.
      * intros x [<-|[<-|Hx]].
        -- apply (ts_le_trans _ y); [now apply ts_le_total | apply Hle; now left].
        -- apply Hle. now left.
        -- apply Hle. now right.
    + destruct (IH d) as [Hin Hle]. split.
      * destruct Hin as [<-|Hin]; simpl; auto.
      * intros x [<-|[<-|Hx]].
        -- apply Hle. now left.
        -- apply (ts_le_trans _ d); [exact E | apply Hle; now left].
        -- apply Hle. now right.
Qed.

Section SummaryProperties.

Context {F : Type} `{Float64 F}.

(** X1.  The date range of the summary line: the earliest and the latest
    date of the frame.  Both are dates of rows of the frame, no row is dated
    before the first or after the second, and both are [NaT] exactly when no
    row of the frame has a date. *)
Theorem date_range_is_extremal (fdf : DataFrame F) :
  let dates := nonnull (map Date (rows fdf)) in
  (dates = [] -> date_min fdf = None /\ date_max fdf = None)
  /\ (dates <> [] ->
      exists first last,
        date_min fdf = Some first /\ date_max fdf = Some last
        /\ In first dates /\ In last dates
        /\ ts_le first last
        /\ forall d, In d dates -> ts_le first d /\ ts_le d last).
Proof.
  cbv zeta. unfold date_min, date_max.
  destruct (nonnull (map Date (rows fdf))) as [|d ds].
  - split; [auto | congruence].
  - split; [discriminate|]. intros _.
    destruct (fold_earliest ds d) as [Hin1 Hle1].
    destruct (fold_latest ds d) as [Hin2 Hle2].
    eexists _, _. repeat split; try reflexivity; auto.
Qed.

End SummaryProperties.

(** ** The year slider *)

Lemma fold_min_spec (xs : list Z) (x : Z) :
  let m := fold_left Z.min xs x in
  In m (x :: xs) /\ forall y, In y (x :: xs) -> m <= y.
Proof.
  cbv zeta. revert x. induction xs as [|z xs IH]; intros x; cbn [fold_left].
  - split; [now left|]. intros y [<-|[]]. lia.
  - destruct (IH (Z.min x z)) as [Hin Hle]. split.
    + destruct Hin as [E|Hin]; [|simpl; auto].
      rewrite <- E. destruct (Z.min_spec x z) as [[_ ->]|[_ ->]]; simpl; auto.
    + intros y Hy. specialize (Hle (Z.min x z) (or_introl eq_refl)).
      destruct Hy as [<-|[<-|Hy]]; [lia | lia |].
      destruct (IH (Z.min x z)) as [_ Hle']. apply Hle'. now right.
Qed.

Lemma fold_max_spec (xs : list Z) (x : Z) :
  let m := fold_left Z.max xs x in
  In m (x :: xs) /\ forall y, In y (x :: xs) -> y <= m.
Proof.
  cbv zeta. revert x. induction xs as [|z xs IH]; intros x; cbn [fold_left].
  - split; [now left|]. intros y [<-|[]]. lia.
  - destruct (IH (Z.max x z)) as [Hin Hle]. split.
    + destruct Hin as [E|Hin]; [|simpl; auto].
      rewrite <- E. destruct (Z.max_spec x z) as [[_ ->]|[_ ->]]; simpl; auto.
    + intros y Hy. specialize (Hle (Z.max x z) (or_introl eq_refl)).
      destruct Hy as [<-|[<-|Hy]]; [lia | lia |].
      destruct (IH (Z.max x z)) as [_ Hle']. apply Hle'. now right.
Qed.

Lemma year_bounds_cases (F : Type) (df : DataFrame F) :
  let years := nonnull (map Year (rows df)) in
  match years with
  | [] => year_bounds df = Raise (ValueError "cannot convert float NaN to integer")
  | y :: ys => year_bounds df = Ok (fold_left Z.min ys y, fold_left Z.max ys y)
  end.
Proof.
  cbv zeta. unfold year_bounds, series_min, series_max.
  destruct (nonnull (map Year (rows df))); reflexivity.
Qed.

Lemma st_slider_drawn (min_value max_value : Z) (chosen : option (Z * Z)) :
  min_value < max_value ->
  st_slider min_value max_value chosen = Ok (slider min_value max_value chosen).
Proof.
  intros Hlt. unfold st_slider. now rewrite (proj2 (Z.ltb_lt _ _) Hlt).
Qed.

Lemma st_slider_refused (min_value max_value : Z) (chosen : option (Z * Z)) :
  max_value <= min_value ->
  st_slider min_value max_value chosen
  = Raise (StreamlitAPIException "Slider min_value must be less than max_value").
Proof.
  intros Hle. unfold st_slider. now rewrite (proj2 (Z.ltb_ge _ _) Hle).
Qed.

Lemma max_day_range (selected_months : list (option Z)) :
  28 <= max_day selected_months <= 31.
Proof.
  unfold max_day. destruct selected_months as [|m [|? ?]]; try lia.
  destruct (existsb (month_is m) [4; 6; 9; 11]); [lia|].
  destruct (month_is m 2); lia.
Qed.

(** The day slider runs from 1 to a cap of at least 28: it is always drawn. *)
Lemma day_slider_drawn (selected_months : list (option Z)) (chosen : option (Z * Z)) :
  st_slider 1 (max_day selected_months) chosen
  = Ok (slider 1 (max_day selected_months) chosen).
Proof.
  apply st_slider_drawn. pose proof (max_day_range selected_months). lia.
Qed.

(** X2.  The year slider.  When no row has a year the script stops with
    [ValueError] at the conversion to [int].  Otherwise the bounds are the
    least and the greatest year among the rows: both occur in the frame and
    every year of the frame lies between them.  When the two differ the
    slider is drawn, it starts at the pair of bounds, and every row with a
    year passes the two year comparisons of the filter under that pair.  When
    they coincide, all dated rows being of one year, Streamlit refuses the
    slider and the run ends there, whatever the user would have set. *)
Theorem year_bounds_extremal (F : Type) (df : DataFrame F) :
  ((forall r, In r (rows df) -> Year r = None) ->
   year_bounds df = Raise (ValueError "cannot convert float NaN to integer"))
  /\ (forall r0 y0, In r0 (rows df) -> Year r0 = Some y0 ->
      exists lo hi,
        year_bounds df = Ok (lo, hi)
        /\ lo <= hi
        /\ (exists r, In r (rows df) /\ Year r = Some lo)
        /\ (exists r, In r (rows df) /\ Year r = Some hi)
        /\ (forall r y, In r (rows df) -> Year r = Some y -> lo <= y <= hi)
        /\ (lo < hi ->
            st_slider lo hi None = Ok (lo, hi)
            /\ forall r y, In r (rows df) -> Year r = Some y ->
                 cell_ge (Year r) lo && cell_le (Year r) hi = true)
        /\ (lo = hi ->
            forall chosen,
              st_slider lo hi chosen
              = Raise (StreamlitAPIException
                         "Slider min_value must be less than max_value"))).
Proof.
  pose proof (year_bounds_cases F df) as Hc. cbv zeta in Hc.
  assert (Hyears : forall y, In y (nonnull (map Year (rows df)))
                             <-> exists r, In r (rows df) /\ Year r = Some y).
  { intros y. rewrite nonnull_In, in_map_iff. split; intros (r & A & B); eauto. }
  split.
  - intros Hnone. destruct (nonnull (map Year (rows df))) as [|y ys]; [exact Hc|].
    destruct (proj1 (Hyears y) (or_introl eq_refl)) as (r & Hr & Ey).
    rewrite (Hnone r Hr) in Ey. discriminate.
  - intros r0 y0 Hr0 Ey0.
    destruct (nonnull (map Year (rows df))) as [|y ys] eqn:E.
    { exfalso. apply (proj2 (Hyears y0)). eauto. }
    destruct (fold_min_spec ys y) as [Hmin_in Hmin].
    destruct (fold_max_spec ys y) as [Hmax_in Hmax].
    exists (fold_left Z.min ys y), (fold_left Z.max ys y).
    assert (Hbetween : forall r y', In r (rows df) -> Year r = Some y' ->
              fold_left Z.min ys y <= y' <= fold_left Z.max ys y).
    { intros r y' Hr Ey.
      assert (Hy : In y' (y :: ys)) by (apply Hyears; eauto).
      specialize (Hmin y' Hy). specialize (Hmax y' Hy). lia. }
    split; [exact Hc|]. split.
    { specialize (Hmin y (or_introl eq_refl)).
      specialize (Hmax y (or_introl eq_refl)). lia. }
    split; [now apply Hyears|]. split; [now apply Hyears|].
    split; [exact Hbetween|]. split.
    + intros Hlt. split; [now apply st_slider_drawn|].
      intros r y' Hr Ey. specialize (Hbetween r y' Hr Ey).
      rewrite Ey. cbn. apply andb_true_iff. rewrite !Z.leb_le. lia.
    + intros Heq chosen. apply st_slider_refused. lia.
Qed.

(** ** Derived fields *)

Section DerivedProperties.

Context {F : Type} `{Float64 F}.

Lemma derive_well_derived (d : option Timestamp) (cs : list F) :
  well_derived (derive d cs).
Proof. reflexivity. Qed.

Lemma well_derived_year (r : Row F) (y : Z) :
  well_derived r -> Year r = Some y -> exists d, Date r = Some d.
Proof.
  intros Hr Ey. rewrite Hr in Ey. cbn in Ey.
  destruct (Date r) as [d|]; [eauto | discriminate].
Qed.

Lemma load_data_well_derived (to_datetime : string -> option Timestamp)
    (hdr : list string) (csv : list (CsvRecord F)) :
  Forall well_derived (rows (load_data to_datetime hdr csv)).
Proof.
  unfold load_data. cbn [rows]. rewrite Forall_forall. intros r Hr.
  apply in_map_iff in Hr as (rec & <- & _). apply derive_well_derived.
Qed.

End DerivedProperties.

(** ** The page *)

Section PageProperties.

Context {F : Type} `{Float64 F}.

Lemma filtered_row_dated (df : DataFrame F) (yr : Z * Z) (months : list (option Z))
    (dr : Z * Z) (r : Row F) :
  Forall well_derived (rows df) ->
  In r (rows (filtered_df df yr months dr)) ->
  exists d, Date r = Some d.
Proof.
  intros Hwd Hr. cbn [filtered_df rows] in Hr. apply filter_In in Hr as [Hr Hm].
  rewrite Forall_forall in Hwd.
  apply mask_true in Hm as [(y & Ey & _) _].
  eapply well_derived_year; eauto.
Qed.

Lemma tabs_on_data (fdf : DataFrame F) (selected_medications : list string) :
  empty fdf = false ->
  (forall m, In m selected_medications -> In m (medication_columns fdf)) ->
  tab_time_series fdf selected_medications
  = Ok [st_subheader "Time Series Analysis";
        line_chart (map Date (rows fdf))
                   (map (fun m => (m, column_values fdf m)) selected_medications)]
  /\ tab_weekly_pattern fdf selected_medications
     = Ok [st_subheader "Weekly Usage Pattern";
           bar_chart (weekday_means fdf selected_medications) selected_medications]
  /\ tab_statistics fdf selected_medications
     = Ok [st_subheader "Statistical Summary";
           stats_table (map (fun m => (m, describe_sum (column_values fdf m)))
                            selected_medications);
           st_subheader "Medication Correlations";
           heatmap (corr (map (column_values fdf) selected_medications))].
Proof.
  intros Hne Hall. unfold tab_time_series, tab_weekly_pattern, tab_statistics.
  rewrite Hne. cbn [negb].
  rewrite (select_ok fdf) by assumption.
  rewrite weekday_df_explicit, stats_df_explicit, corr_matrix_explicit by assumption.
  cbn [bind]. now rewrite combine_map_self.
Qed.

(** X4.  On a frame whose derived fields are in step with [Date], and for a
    non-empty selection of its medication columns, the page below the sidebar
    raises exactly when the filtered frame is empty.  When the filtered frame
    has a row, both ends of the date range render, and the page is the
    summary followed by the line chart, the weekday chart, the statistics
    table and the correlation heatmap, with no warning. *)
Theorem display_raises_iff_empty (df : DataFrame F)
    (selected_medications : list string) (year_range : Z * Z)
    (selected_months : list (option Z)) (selected_day_range : Z * Z) :
  Forall well_derived (rows df) ->
  selected_medications <> [] ->
  (forall m, In m selected_medications -> In m (medication_columns df)) ->
  let fdf := filtered_df df year_range selected_months selected_day_range in
  raises (display df selected_medications year_range selected_months selected_day_range)
  = empty fdf
  /\ (empty fdf = false ->
      exists first last,
        strftime (date_min fdf) = Ok first
        /\ strftime (date_max fdf) = Ok last
        /\ display df selected_medications year_range selected_months
                   selected_day_range
           = Ok (full_page fdf selected_medications first last)).
Proof.
  intros Hwd Hmeds Hall. cbv zeta.
  set (fdf := filtered_df df year_range selected_months selected_day_range).
  destruct selected_medications as [|m ms]; [congruence|].
  destruct (empty fdf) eqn:He.
  - split; [|discriminate]. unfold display. fold fdf.
    now rewrite main_display_empty_raises.
  - assert (Hdates : exists d ds, nonnull (map Date (rows fdf)) = d :: ds).
    { unfold empty in He. destruct (rows fdf) as [|r rs] eqn:Er; [discriminate|].
      destruct (filtered_row_dated df year_range selected_months selected_day_range r Hwd)
        as (d & Ed).
      { fold fdf. rewrite Er. now left. }
      cbn [map]. rewrite Ed. cbn. eauto. }
    destruct Hdates as (d & ds & Ed).
    destruct (tabs_on_data fdf (m :: ms) He Hall) as (E1 & E2 & E3).
    assert (Hpage : exists first last,
               strftime (date_min fdf) = Ok first
               /\ strftime (date_max fdf) = Ok last
               /\ display df (m :: ms) year_range selected_months selected_day_range
                  = Ok (full_page fdf (m :: ms) first last)).
    { unfold date_min, date_max. rewrite Ed. cbn [strftime].
      eexists _, _. split; [reflexivity|]. split; [reflexivity|].
      unfold display. fold fdf. unfold main_display, date_min, date_max.
      rewrite Ed. cbn [strftime bind]. rewrite E1, E2, E3. reflexivity. }
    split; [|intros _; exact Hpage].
    destruct Hpage as (first & last & _ & _ & ->). reflexivity.
Qed.

Lemma january_offered (df : DataFrame F) (chosen : option (list (option Z))) :
  (exists r, In r (rows df) /\ Month r = Some 1) ->
  month_multiselect df chosen
  = Ok (match chosen with Some c => c | None => [Some 1] end).
Proof.
  intros Hjan. apply available_months_In in Hjan.
  unfold month_multiselect, multiselect. cbn [forallb].
  assert (E : existsb (cell_eqb (Some 1)) (available_months df) = true).
  { apply existsb_exists. exists (Some 1). split; [assumption | reflexivity]. }
  now rewrite E.
Qed.

Lemma january_missing (df : DataFrame F) (chosen : option (list (option Z))) :
  (forall r, In r (rows df) -> Month r <> Some 1) ->
  month_multiselect df chosen
  = Raise (StreamlitAPIException "Every Multiselect default value must exist in options").
Proof.
  intros Hno. unfold month_multiselect, multiselect. cbn [forallb].
  assert (E : existsb (cell_eqb (Some 1)) (available_months df) = false).
  { apply Bool.not_true_iff_false. intros Ex.
    apply existsb_exists in Ex as (x & Hx & Ex).
    apply cell_eqb_eq in Ex. subst x.
    apply available_months_In in Hx as (r & Hr & Em). now apply (Hno r Hr). }
  now rewrite E.
Qed.

(** X5.  A run whose sidebar renders.  On a frame whose rows span more than
    one year and include a January row, the script shows the page for the
    widgets' values followed by the footer, and raises what that page raises:
    the medications chosen or else the first medication column, the year
    range chosen or else the frame's bounds, the months chosen or else January
    alone, and the day range chosen or else 1 to the cap of those months.
    With no control touched the filter is the full year range, January, days
    1 to 31. *)
Theorem script_shows_widget_values (df : DataFrame F) (ui : Interaction)
    (bounds : Z * Z) :
  year_bounds df = Ok bounds ->
  fst bounds < snd bounds ->
  (exists r, In r (rows df) /\ Month r = Some 1) ->
  script df ui
  = (page <- display df (widget_medications df ui)
                     (slider (fst bounds) (snd bounds) (chosen_years ui))
                     (widget_months ui)
                     (slider 1 (max_day (widget_months ui)) (chosen_days ui)) ;;
     Ok (page ++ footer))
  /\ (ui = mkInteraction None None None None ->
      script df ui
      = (page <- display df (firstn 1 (medication_columns df)) bounds [Some 1] (1, 31) ;;
         Ok (page ++ footer))).
Proof.
  intros Hy Hlt Hjan.
  assert (E : script df ui
              = (page <- display df (widget_medications df ui)
                                 (slider (fst bounds) (snd bounds) (chosen_years ui))
                                 (widget_months ui)
                                 (slider 1 (max_day (widget_months ui)) (chosen_days ui)) ;;
                 Ok (page ++ footer))).
  { unfold script. rewrite default_medication_accepted, Hy. cbn [bind].
    rewrite (st_slider_drawn _ _ _ Hlt). cbn [bind].
    rewrite (january_offered df _ Hjan). cbn [bind].
    rewrite day_slider_drawn. reflexivity. }
  split; [exact E|].
  intros ->. rewrite E. destruct bounds as [lo hi]. reflexivity.
Qed.

(** X6.  The three ways a run stops in the sidebar, whatever the user has
    set.  On a frame where no row has a year (no date parsed, or no record at
    all) the run ends in [ValueError] at the year bounds.  On a frame whose
    dated rows are all of one year the run ends at the year slider, which
    Streamlit refuses to draw between equal bounds.  On a frame that spans
    more than one year but has no January row the run ends at the month
    control, whose default [1] is not among its options. *)
Theorem script_stops_in_sidebar (df : DataFrame F) (ui : Interaction) :
  ((forall r, In r (rows df) -> Year r = None) ->
   script df ui = Raise (ValueError "cannot convert float NaN to integer"))
  /\ (forall year,
        year_bounds df = Ok (year, year) ->
        script df ui
        = Raise (StreamlitAPIException "Slider min_value must be less than max_value"))
  /\ (forall bounds,
        year_bounds df = Ok bounds ->
        fst bounds < snd bounds ->
        (forall r, In r (rows df) -> Month r <> Some 1) ->
        script df ui
        = Raise (StreamlitAPIException
                   "Every Multiselect default value must exist in options")).
Proof.
  split; [|split].
  - intros Hnone. unfold script. rewrite default_medication_accepted. cbn [bind].
    pose proof (year_bounds_cases F df) as Hc. cbv zeta in Hc.
    destruct (nonnull (map Year (rows df))) as [|y ys] eqn:E.
    + now rewrite Hc.
    + exfalso.
      assert (Hy : In y (nonnull (map Year (rows df)))) by (rewrite E; now left).
      apply nonnull_In, in_map_iff in Hy as (r & Ey & Hr).
      rewrite (Hnone r Hr) in Ey. discriminate.
  - intros year Hy. unfold script.
    rewrite default_medication_accepted, Hy. cbn [bind fst snd].
    rewrite st_slider_refused by lia. reflexivity.
  - intros bounds Hy Hlt Hno. unfold script.
    rewrite default_medication_accepted, Hy. cbn [bind].
    rewrite (st_slider_drawn _ _ _ Hlt). cbn [bind].
    now rewrite (january_missing df _ Hno).
Qed.


End PageProperties.

(** ** The month options *)

Lemma insert_by_Zsorted (x : Z) (l : list Z) :
  StronglySorted Z.le l -> StronglySorted Z.le (insert_by Z.ltb x l).
Proof.
  intros Hs. induction Hs as [|y l Hs IH Hy]; cbn [insert_by].
  - repeat constructor.
  - destruct (Z.ltb_spec x y) as [Hlt|Hge].
    + constructor; [now constructor|].
      constructor; [lia|].
      rewrite Forall_forall in *. intros z Hz. specialize (Hy z Hz). lia.
    + constructor; [assumption|].
      rewrite Forall_forall in *. intros z Hz.
      apply insert_by_In in Hz as [->|Hz]; [lia | auto].
Qed.

Lemma sort_by_Zsorted (l : list Z) : StronglySorted Z.le (sort_by Z.ltb l).
Proof.
  unfold sort_by.
  enough (G : forall acc, StronglySorted Z.le acc ->
                          StronglySorted Z.le
                            (fold_left (fun acc x => insert_by Z.ltb x acc) l acc)).
  { apply G. constructor. }
  induction l as [|x l IH]; intros acc Hacc; cbn [fold_left]; [assumption|].
  apply IH. now apply insert_by_Zsorted.
Qed.

Lemma sorted_nodup_strict (l : list Z) :
  StronglySorted Z.le l -> NoDup l -> StronglySorted Z.lt l.
Proof.
  intros Hs. induction Hs as [|x l Hs IH Hx]; intros Hnd; constructor.
  - apply IH. now inversion Hnd.
  - inversion Hnd as [|? ? Hnot _]; subst.
    rewrite Forall_forall in *. intros y Hy. specialize (Hx y Hy).
    assert (x <> y) by (intros ->; contradiction). lia.
Qed.

Lemma all_some (l : list (option Z)) :
  (forall x, In x l -> x <> None) -> l = map Some (nonnull l).
Proof.
  induction l as [|[x|] l IH]; intros Hall; cbn; [reflexivity | |].
  - f_equal. apply IH. intros y Hy. apply Hall. now right.
  - exfalso. apply (Hall None); [now left | reflexivity].
Qed.

(** X7.  The month options on a frame where every date parsed: the months
    that occur, as integers, each once, in strictly ascending order. *)
Theorem available_months_ascending (F : Type) (df : DataFrame F) :
  (forall r, In r (rows df) -> Month r <> None) ->
  exists months : list Z,
    available_months df = map Some months
    /\ StronglySorted Z.lt months
    /\ forall m, In m months <-> exists r, In r (rows df) /\ Month r = Some m.
Proof.
  intros Hall.
  assert (Hu : forall x, In x (unique (map Month (rows df))) -> x <> None).
  { intros x Hx. apply unique_from_In in Hx as [Hx _].
    apply in_map_iff in Hx as (r & <- & Hr). auto. }
  exists (sort_by Z.ltb (nonnull (unique (map Month (rows df))))).
  assert (E : available_months df
              = map Some (sort_by Z.ltb (nonnull (unique (map Month (rows df)))))).
  { unfold available_months, sorted. rewrite (all_some _ Hu) at 1.
    apply sort_by_map. reflexivity. }
  split; [exact E|]. split.
  - apply sorted_nodup_strict; [apply sort_by_Zsorted|].
    apply (NoDup_map_inv Some). rewrite <- E. apply available_months_NoDup.
  - intros m. rewrite <- available_months_In, E, in_map_iff. split.
    + intros Hm. eauto.
    + intros (x & Ex & Hx). now inversion Ex; subst.
Qed.

(** ** Columns *)

Section ColumnProperties.

Context {F : Type} `{Float64 F}.



End ColumnProperties.

(** ** The day cap *)

(** X9.  The day slider never reaches past the cap, and the cap is never
    below 28 or above 31.  So whatever day range the slider yields for the
    selected months, a row whose day is beyond their cap is filtered out: with
    February alone selected no row dated the 29th is ever shown, in a leap
    year as in any other. *)
Theorem rows_beyond_cap_hidden :
  (forall selected_months, 28 <= max_day selected_months <= 31)
  /\ (forall selected_months,
        slider 1 (max_day selected_months) None = (1, max_day selected_months))
  /\ (forall (F : Type) (r : Row F) (year_range : Z * Z)
             (selected_months : list (option Z)) (selected_day_range : Z * Z) (d : Z),
        Day r = Some d ->
        max_day selected_months < d ->
        snd selected_day_range <= max_day selected_months ->
        mask year_range selected_months selected_day_range r = false)
  /\ (forall (F : Type) (r : Row F) (year_range : Z * Z) (selected_day_range : Z * Z),
        Day r = Some 29 ->
        snd selected_day_range <= max_day [Some 2] ->
        mask year_range [Some 2] selected_day_range r = false).
Proof.
  assert (Hhide : forall (F : Type) (r : Row F) (year_range : Z * Z)
             (selected_months : list (option Z)) (selected_day_range : Z * Z) (d : Z),
        Day r = Some d ->
        max_day selected_months < d ->
        snd selected_day_range <= max_day selected_months ->
        mask year_range selected_months selected_day_range r = false).
  { intros F r yr months dr d Ed Hd Hr. unfold mask. rewrite Ed. cbn [cell_le].
    destruct (Z.leb_spec d (snd dr)); [lia|]. now rewrite !andb_false_r. }
  split; [|split; [|split]].
  - intros months. unfold max_day.
    destruct months as [|m [|? ?]]; try lia.
    destruct (existsb (month_is m) [4; 6; 9; 11]); [lia|].
    destruct (month_is m 2); lia.
  - reflexivity.
  - exact Hhide.
  - intros F r yr dr E29 Hr. apply (Hhide F r yr [Some 2] dr 29 E29); [reflexivity | exact Hr].
Qed.

(** ** The filter as an operation *)

Lemma filter_filter {A : Type} (f g : A -> bool) (l : list A) :
  filter g (filter f l) = filter (fun a => f a && g a) l.
Proof.
  induction l as [|a l IH]; cbn [filter]; [reflexivity|].
  destruct (f a); cbn [filter andb]; [|exact IH].
  destruct (g a); now rewrite IH.
Qed.

Lemma filter_subseq_weaker {A : Type} (f g : A -> bool) (l : list A) :
  (forall a, In a l -> f a = true -> g a = true) ->
  subseq (filter f l) (filter g l).
Proof.
  induction l as [|a l IH]; intros Hfg; cbn [filter]; [constructor|].
  assert (IH' : subseq (filter f l) (filter g l)).
  { apply IH. intros b Hb. apply Hfg. now right. }
  destruct (f a) eqn:Ef.
  - rewrite (Hfg a (or_introl eq_refl) Ef). now constructor.
  - destruct (g a); [now constructor | assumption].
Qed.

Lemma filter_length_cons {A : Type} (f : A -> bool) (a : A) (l : list A) :
  List.length (filter f (a :: l)) = (Nat.b2n (f a) + List.length (filter f l))%nat.
Proof. cbn [filter]. now destruct (f a). Qed.

Section FilterAlgebra.

Context {F : Type} `{Float64 F}.

(** X10.  Filtering a filtered frame keeps the rows that pass both masks;
    the order of the two filters does not matter, and filtering again with
    the same parameters changes nothing. *)
Theorem filter_twice (df : DataFrame F) (yr1 yr2 : Z * Z)
    (months1 months2 : list (option Z)) (dr1 dr2 : Z * Z) :
  filtered_df (filtered_df df yr1 months1 dr1) yr2 months2 dr2
  = mkFrame (header df)
            (filter (fun r => mask yr1 months1 dr1 r && mask yr2 months2 dr2 r) (rows df))
  /\ filtered_df (filtered_df df yr1 months1 dr1) yr2 months2 dr2
     = filtered_df (filtered_df df yr2 months2 dr2) yr1 months1 dr1
  /\ filtered_df (filtered_df df yr1 months1 dr1) yr1 months1 dr1
     = filtered_df df yr1 months1 dr1.
Proof.
  unfold filtered_df. cbn [rows header]. rewrite !filter_filter.
  split; [reflexivity|]. split; f_equal.
  - apply filter_ext. intros r. apply andb_comm.
  - apply filter_ext. intros r. apply andb_diag.
Qed.

Lemma mask_weaker (yr yr' : Z * Z) (months months' : list (option Z))
    (dr dr' : Z * Z) (r : Row F) :
  range_within yr yr' -> incl months months' -> range_within dr dr' ->
  mask yr months dr r = true -> mask yr' months' dr' r = true.
Proof.
  unfold range_within. intros [Hy1 Hy2] Hm [Hd1 Hd2].
  rewrite !mask_true. unfold year_in_range, month_selected, day_in_range.
  intros ((y & Ey & Hy) & Hin & (d & Ed & Hd)).
  split; [exists y; split; [assumption | lia]|].
  split; [now apply Hm|]. exists d. split; [assumption | lia].
Qed.

(** X11.  Narrowing the filter never brings a row in: when the year range
    and the day range lie within wider ones and the months are among wider
    ones, the narrower frame is a sub-sequence of the wider one.  With no
    month selected, or with a year or day range whose lower end is above its
    upper end, the frame is empty. *)
Theorem filter_narrows (df : DataFrame F) (yr yr' : Z * Z)
    (months months' : list (option Z)) (dr dr' : Z * Z) :
  (range_within yr yr' -> incl months months' -> range_within dr dr' ->
   subseq (rows (filtered_df df yr months dr)) (rows (filtered_df df yr' months' dr'))
   /\ (List.length (rows (filtered_df df yr months dr))
       <= List.length (rows (filtered_df df yr' months' dr')))%nat)
  /\ rows (filtered_df df yr [] dr) = []
  /\ (snd yr < fst yr -> rows (filtered_df df yr months dr) = [])
  /\ (snd dr < fst dr -> rows (filtered_df df yr months dr) = []).
Proof.
  assert (Hnone : forall f : Row F -> bool,
             (forall r, f r = false) -> filter f (rows df) = []).
  { intros f Hf. induction (rows df) as [|r l IH]; cbn [filter]; [reflexivity|].
    now rewrite Hf. }
  assert (Hlen : forall l1 l2 : list (Row F),
             subseq l1 l2 -> (List.length l1 <= List.length l2)%nat).
  { intros l1 l2 Hs. induction Hs; simpl; lia. }
  split; [|split; [|split]].
  - intros Hy Hm Hd.
    assert (Hs : subseq (rows (filtered_df df yr months dr))
                        (rows (filtered_df df yr' months' dr'))).
    { unfold filtered_df. cbn [rows]. apply filter_subseq_weaker.
      intros r _. now apply mask_weaker. }
    split; [exact Hs | now apply Hlen].
  - unfold filtered_df. cbn [rows]. apply Hnone. intros r.
    unfold mask. cbn [isin existsb]. now rewrite andb_false_r.
  - intros Hinv. unfold filtered_df. cbn [rows]. apply Hnone. intros r.
    apply Bool.not_true_iff_false. rewrite mask_true.
    intros ((y & _ & Hy) & _). lia.
  - intros Hinv. unfold filtered_df. cbn [rows]. apply Hnone. intros r.
    apply Bool.not_true_iff_false. rewrite mask_true.
    intros (_ & _ & (d & _ & Hd)). lia.
Qed.

(** X12.  The weekday groups split the dated rows.  A row is in the group of
    a weekday exactly when that is its weekday name, so no row is in two
    groups and a row without a weekday name is in none; the sizes of the
    seven groups add up to the number of rows that have a weekday name; and
    the group keys are the weekdays that occur, each once. *)
Theorem groups_partition (df : DataFrame F) :
  (forall r w, In r (rows (group df w)) <-> In r (rows df) /\ Weekday_Name r = Some w)
  /\ list_sum (map (fun w => List.length (rows (group df w))) week)
     = List.length (filter (fun r => isSome (Weekday_Name r)) (rows df))
  /\ NoDup (group_keys df)
  /\ (forall w, In w (group_keys df) <-> exists r, In r (rows df) /\ Weekday_Name r = Some w).
Proof.
  split; [|split; [|split]].
  - intros r w. unfold group. cbn [rows]. rewrite filter_In. unfold in_group.
    split; intros [Hr Hw]; split; try assumption.
    + destruct (Weekday_Name r) as [w'|]; [|discriminate].
      apply weekday_eqb_eq in Hw. now subst.
    + rewrite Hw. apply weekday_eqb_refl.
  - unfold group, week. cbn [rows map list_sum fold_right].
    induction (rows df) as [|r l IH]; [reflexivity|].
    rewrite !filter_length_cons.
    assert (Hr : (Nat.b2n (in_group Monday r) + Nat.b2n (in_group Tuesday r)
                  + Nat.b2n (in_group Wednesday r) + Nat.b2n (in_group Thursday r)
                  + Nat.b2n (in_group Friday r) + Nat.b2n (in_group Saturday r)
                  + Nat.b2n (in_group Sunday r)
                  = Nat.b2n (isSome (Weekday_Name r)))%nat).
    { unfold in_group. destruct (Weekday_Name r) as [[]|]; reflexivity. }
    lia.
  - apply group_keys_NoDup.
  - intros w. rewrite <- member_In, group_keys_member, present_In, in_map_iff.
    split; intros (r & A & B); eauto.
Qed.

End FilterAlgebra.

(** ** The weekday of a date *)

Lemma days_from_civil_day (y m d k : Z) :
  days_from_civil (mkTimestamp y m (d + k)) = days_from_civil (mkTimestamp y m d) + k.
Proof. unfold days_from_civil. cbn [ts_year ts_month ts_day]. lia. Qed.

Lemma weekday_of_index_nth (i : Z) :
  0 <= i < 7 -> weekday_of_index i = nth (Z.to_nat i) week Sunday.
Proof.
  intros Hi.
  assert (E : i = 0 \/ i = 1 \/ i = 2 \/ i = 3 \/ i = 4 \/ i = 5 \/ i = 6) by lia.
  destruct E as [->|[->|[->|[->|[->|[->| ->]]]]]]; reflexivity.
Qed.

(** X13.  The weekday name of a date.  The day-of-week index lies in 0..6,
    so the name is the entry of the week at that index; within a month the
    next day has the next index (Sunday is followed by Monday), and the day
    seven days later has the same weekday name, so the two rows fall in the
    same weekday group. *)
Theorem weekday_by_day (y m d : Z) :
  0 <= dayofweek (mkTimestamp y m d) < 7
  /\ day_name (mkTimestamp y m d)
     = nth (Z.to_nat (dayofweek (mkTimestamp y m d))) week Sunday
  /\ dayofweek (mkTimestamp y m (d + 1)) = (dayofweek (mkTimestamp y m d) + 1) mod 7
  /\ day_name (mkTimestamp y m (d + 7)) = day_name (mkTimestamp y m d).
Proof.
  assert (Hr : forall t, 0 <= dayofweek t < 7).
  { intros t. unfold dayofweek. apply Z.mod_pos_bound. lia. }
  split; [apply Hr|]. split; [|split].
  - unfold day_name. apply weekday_of_index_nth, Hr.
  - unfold dayofweek. rewrite days_from_civil_day.
    replace (days_from_civil (mkTimestamp y m d) + 1 + 3)
      with (days_from_civil (mkTimestamp y m d) + 3 + 1) by lia.
    rewrite Z.add_mod by lia. rewrite (Z.mod_small 1 7) by lia. reflexivity.
  - unfold day_name, dayofweek. rewrite days_from_civil_day.
    replace (days_from_civil (mkTimestamp y m d) + 7 + 3)
      with (days_from_civil (mkTimestamp y m d) + 3 + 1 * 7) by lia.
    now rewrite Z.mod_add by lia.
Qed.

(** ** The range of a correlation *)

Section ClipProperties.

Context {F : Type} `{Float64 F}.

Lemma clip_cases (v : F) :
  clip v = fofZ 1 \/ clip v = fofZ (-1)
  \/ (clip v = v /\ fltb (fofZ 1) v = false /\ fltb v (fofZ (-1)) = false).
Proof.
  unfold clip. destruct (fltb (fofZ 1) v); [now left|].
  destruct (fltb v (fofZ (-1))); [right; now left | right; right; auto].
Qed.

Lemma corr_cell_cases (xs ys : list F) :
  corr_cell xs ys = fnan \/ exists v, corr_cell xs ys = clip v.
Proof.
  unfold corr_cell. destruct (nobs _ <? 1); [now left|].
  destruct (negb _); [right; eauto | now left].
Qed.

Lemma corr_entries (cols : list (list F)) (row : list F) (c : F) :
  In row (corr cols) -> In c row -> exists xs ys, c = corr_cell xs ys.
Proof.
  unfold corr. intros Hrow Hc.
  apply in_map_iff in Hrow as (i & <- & _).
  apply in_map_iff in Hc as (j & <- & _).
  unfold corr_entry. destruct (j <=? i)%nat; eauto.
Qed.

End ClipProperties.

(** X14.  No cell of the correlation matrix is above 1 or below -1.  In the
    code's floats every cell compares neither greater than 1 nor less than
    -1 (a NaN cell compares false both ways); in exact arithmetic every cell
    is NaN or a number between -1 and 1. *)
Theorem corr_within_unit :
  (forall (cols : list (list float)) (row : list float) (c : float),
      In row (corr cols) -> In c row -> within_unit c)
  /\ (forall (cols : list (list xreal)) (row : list xreal) (c : xreal),
         In row (corr cols) -> In c row ->
         c = None \/ exists x, c = Some x /\ (-1 <= x <= 1)%R).
Proof.
  split.
  - intros cols row c Hrow Hc.
    destruct (corr_entries cols row c Hrow Hc) as (xs & ys & ->).
    destruct (corr_cell_cases xs ys) as [->|(v & ->)]; [split; reflexivity|].
    destruct (clip_cases v) as [->|[->|(-> & H1 & H2)]];
      [split; reflexivity | split; reflexivity | split; assumption].
  - intros cols row c Hrow Hc.
    destruct (corr_entries cols row c Hrow Hc) as (xs & ys & ->).
    destruct (corr_cell_cases xs ys) as [->|(v & ->)]; [now left|].
    destruct (clip_cases v) as [->|[->|(-> & H1 & H2)]].
    + right. exists 1%R. split; [reflexivity | lra].
    + right. exists (-1)%R. split; [reflexivity | lra].
    + destruct v as [x|]; [right | now left].
      exists x. split; [reflexivity|].
      cbn [fltb fofZ exact xcmp] in H1, H2. unfold Rltb in H1, H2.
      destruct (Rlt_dec 1 x); [discriminate|].
      destruct (Rlt_dec x (-1)); [discriminate|]. lra.
Qed.

(** ** The order of the statistics *)

Local Open Scope R_scope.

Lemma nth_sorted (v : list R) (i j : nat) :
  StronglySorted Rle v -> (i <= j)%nat -> (j < List.length v)%nat ->
  nth i v 0 <= nth j v 0.
Proof.
  intros Hs. revert i j. induction Hs as [|x l Hs IH Hx]; intros i j Hij Hj.
  - simpl in Hj. lia.
  - destruct j as [|j].
    + replace i with O by lia. lra.
    + destruct i as [|i]; cbn [nth].
      * rewrite Forall_forall in Hx. apply Hx, nth_In. simpl in Hj. lia.
      * apply IH; simpl in Hj; lia.
Qed.

Lemma interpolate_between (v : list R) (p : Z) :
  StronglySorted Rle v ->
  (0 <= p <= 4 * (Z.of_nat (List.length v) - 1))%Z ->
  nth (Z.to_nat (p / 4)) v 0 <= interpolate v p
  /\ interpolate v p
     <= nth (Z.to_nat (Z.min (p / 4 + 1) (Z.of_nat (List.length v) - 1))) v 0.
Proof.
  intros Hs Hp. unfold interpolate.
  set (n := Z.of_nat (List.length v)) in *.
  assert (Hq : (0 <= p / 4 <= n - 1)%Z).
  { split; [apply Z.div_pos; lia | apply Z.div_le_upper_bound; lia]. }
  assert (Hle : nth (Z.to_nat (p / 4)) v 0
                <= nth (Z.to_nat (Z.min (p / 4 + 1) (n - 1))) v 0).
  { apply nth_sorted; [assumption | lia | unfold n in *; lia]. }
  assert (Hg : 0 <= IZR (p mod 4) / 4 < 1).
  { pose proof (Z.mod_pos_bound p 4 ltac:(lia)) as [H0 H4].
    apply IZR_le in H0. apply IZR_lt in H4. lra. }
  nra.
Qed.

Lemma interpolate_mono (v : list R) (p p' : Z) :
  StronglySorted Rle v ->
  (0 <= p <= p')%Z -> (p' <= 4 * (Z.of_nat (List.length v) - 1))%Z ->
  interpolate v p <= interpolate v p'.
Proof.
  intros Hs Hp Hp'.
  set (n := Z.of_nat (List.length v)) in *.
  assert (Hq : (0 <= p / 4 <= p' / 4)%Z).
  { split; [apply Z.div_pos; lia | apply Z.div_le_mono; lia]. }
  assert (Hq' : (p' / 4 <= n - 1)%Z) by (apply Z.div_le_upper_bound; lia).
  destruct (Z.eq_dec (p / 4) (p' / 4)) as [E|N].
  - unfold interpolate. fold n. rewrite <- E.
    assert (Hle : nth (Z.to_nat (p / 4)) v 0
                  <= nth (Z.to_nat (Z.min (p / 4 + 1) (n - 1))) v 0).
    { apply nth_sorted; [assumption | lia | unfold n in *; lia]. }
    assert (Hr : (p mod 4 <= p' mod 4)%Z).
    { rewrite !Z.mod_eq by lia. lia. }
    apply IZR_le in Hr. nra.
  - destruct (interpolate_between v p Hs ltac:(fold n; lia)) as [_ Hup].
    destruct (interpolate_between v p' Hs ltac:(fold n; lia)) as [Hlow _].
    fold n in Hup.
    assert (Hmid : nth (Z.to_nat (Z.min (p / 4 + 1) (n - 1))) v 0
                   <= nth (Z.to_nat (p' / 4)) v 0).
    { apply nth_sorted; [assumption | lia | unfold n in *; lia]. }
    lra.
Qed.

Lemma quantile4_interpolate (k : Z) (l : list xreal) :
  (1 <= k <= 3)%Z -> nonnull l <> [] ->
  quantile4 k l
  = Some (interpolate (sort_by Rltb (nonnull l))
                      (k * (Z.of_nat (List.length (nonnull l)) - 1))).
Proof.
  intros Hk Hne. rewrite quantile4_exact by assumption. cbv zeta.
  unfold interpolate.
  now rewrite <- (Permutation_length (sort_by_perm Rltb (nonnull l))).
Qed.

Lemma Rsum_between (xs : list R) (lo hi : R) :
  (forall x, In x xs -> lo <= x <= hi) ->
  INR (List.length xs) * lo <= Rsum xs <= INR (List.length xs) * hi.
Proof.
  induction xs as [|x xs IH]; intros Hb.
  - simpl. lra.
  - change (Rsum (x :: xs)) with (x + Rsum xs).
    change (List.length (x :: xs)) with (S (List.length xs)). rewrite S_INR.
    specialize (IH (fun y Hy => Hb y (or_intror Hy))).
    specialize (Hb x (or_introl eq_refl)). lra.
Qed.

(** X15.  The statistics of a column come in order.  In exact arithmetic,
    for a column with at least one non-null cell, the nine values are numbers
    and Min <= 25% <= Median <= 75% <= Max, the mean lies between Min and Max,
    and the count times the mean is the total. *)
Theorem statistics_in_order (col : list xreal) :
  nonnull col <> [] ->
  exists lo q1 q2 q3 hi mu total,
    Min (describe_sum col) = Some lo
    /\ Q25 (describe_sum col) = Some q1
    /\ Median (describe_sum col) = Some q2
    /\ Q75 (describe_sum col) = Some q3
    /\ Max (describe_sum col) = Some hi
    /\ Mean (describe_sum col) = Some mu
    /\ Total (describe_sum col) = Some total
    /\ lo <= q1 /\ q1 <= q2 /\ q2 <= q3 /\ q3 <= hi
    /\ lo <= mu <= hi
    /\ INR (count col) * mu = total.
Proof.
  intros Hne.
  set (xs := nonnull col) in *.
  set (v := sort_by Rltb xs).
  set (n := Z.of_nat (List.length xs)).
  assert (Hperm : Permutation xs v) by apply sort_by_perm.
  assert (Hlen : List.length v = List.length xs)
    by (symmetry; now apply Permutation_length).
  assert (Hs : StronglySorted Rle v) by apply sort_by_sorted.
  assert (Hn : (1 <= n)%Z).
  { unfold n. destruct xs; [congruence | simpl; lia]. }
  destruct (fmin_exact col Hne) as (lo & Elo & _ & Hlo).
  destruct (fmax_exact col Hne) as (hi & Ehi & _ & Hhi).
  fold xs in Hlo, Hhi.
  assert (Hv : forall i, (i < List.length v)%nat -> lo <= nth i v 0 <= hi).
  { intros i Hi.
    assert (Hin : In (nth i v 0) xs).
    { eapply Permutation_in; [symmetry; exact Hperm | now apply nth_In]. }
    split; [now apply Hlo | now apply Hhi]. }
  assert (Hb : forall k, (1 <= k <= 3)%Z ->
             lo <= interpolate v (k * (n - 1)) <= hi).
  { intros k Hk.
    destruct (interpolate_between v (k * (n - 1)) Hs) as [H1 H2].
    { rewrite Hlen. fold n. nia. }
    rewrite Hlen in H2. fold n in H2.
    assert (Hq : (0 <= k * (n - 1) / 4 <= n - 1)%Z).
    { split; [apply Z.div_pos; nia | apply Z.div_le_upper_bound; nia]. }
    pose proof (Hv (Z.to_nat (k * (n - 1) / 4)) ltac:(rewrite Hlen; unfold n in *; lia)).
    pose proof (Hv (Z.to_nat (Z.min (k * (n - 1) / 4 + 1) (n - 1)))
                   ltac:(rewrite Hlen; unfold n in *; lia)).
    lra. }
  assert (Hm : forall k k', (1 <= k <= k')%Z -> (k' <= 3)%Z ->
             interpolate v (k * (n - 1)) <= interpolate v (k' * (n - 1))).
  { intros k k' Hk Hk'. apply interpolate_mono; [assumption | nia |].
    rewrite Hlen. fold n. nia. }
  exists lo, (interpolate v (1 * (n - 1))), (interpolate v (2 * (n - 1))),
         (interpolate v (3 * (n - 1))), hi,
         (Rsum xs / INR (List.length xs)), (Rsum xs).
  cbn [Min Q25 Median Q75 Max Mean Total describe_sum].
  assert (Hpos : 0 < INR (List.length xs)).
  { apply lt_0_INR. destruct xs; [congruence | simpl; lia]. }
  split; [exact Elo|].
  split; [now apply quantile4_interpolate|].
  split; [now apply quantile4_interpolate|].
  split; [now apply quantile4_interpolate|].
  split; [exact Ehi|].
  split; [now apply mean_exact|].
  split; [apply sum_exact|].
  split; [apply (Hb 1%Z); lia|].
  split; [apply Hm; lia|].
  split; [apply Hm; lia|].
  split; [apply (Hb 3%Z); lia|].
  split.
  - assert (Hsum : INR (List.length xs) * lo <= Rsum xs <= INR (List.length xs) * hi).
    { apply Rsum_between. intros x Hx. split; [now apply Hlo | now apply Hhi]. }
    split.
    + apply Rmult_le_reg_l with (INR (List.length xs)); [assumption|].
      replace (INR (List.length xs) * (Rsum xs / INR (List.length xs)))
        with (Rsum xs) by (field; lra). lra.
    + apply Rmult_le_reg_l with (INR (List.length xs)); [assumption|].
      replace (INR (List.length xs) * (Rsum xs / INR (List.length xs)))
        with (Rsum xs) by (field; lra). lra.
  - rewrite count_exact. fold xs. field. lra.
Qed.

Local Close Scope R_scope.

(** ** The single pass computes Pearson's coefficient *)

Local Open Scope R_scope.

Lemma Rsum_snoc {A : Type} (f : A -> R) (l : list A) (a : A) :
  Rsum (map f (l ++ [a])) = Rsum (map f l) + f a.
Proof.
  induction l as [|x l IH]; cbn [app map Rsum fold_right].
  - ring.
  - change (fold_right Rplus 0 (map f (l ++ [a]))) with (Rsum (map f (l ++ [a]))).
    rewrite IH. unfold Rsum. ring.
Qed.

(** The sum of products of deviations from [a] and [b], through the raw
    sums. *)
Lemma centered_sum (ps : list (R * R)) (f g : R * R -> R) (a b : R) :
  Rsum (map (fun p => (f p - a) * (g p - b)) ps)
  = Rsum (map (fun p => f p * g p) ps) - a * Rsum (map g ps) - b * Rsum (map f ps)
    + INR (List.length ps) * a * b.
Proof.
  induction ps as [|p ps IH].
  - simpl. ring.
  - change (List.length (p :: ps)) with (S (List.length ps)). rewrite S_INR.
    cbn [map]. unfold Rsum in *. cbn [fold_right]. rewrite IH. ring.
Qed.

Lemma co_moment_raw (ps : list (R * R)) (f g : R * R -> R) :
  ps <> [] ->
  co_moment ps f g
  = Rsum (map (fun p => f p * g p) ps)
    - Rsum (map f ps) * Rsum (map g ps) / INR (List.length ps).
Proof.
  intros Hne. unfold co_moment. rewrite centered_sum.
  assert (0 < INR (List.length ps)).
  { apply lt_0_INR. destruct ps; [congruence | simpl; lia]. }
  field. lra.
Qed.

(** What the pass holds after a non-empty run of pairs: the two means and
    the three sums of products of deviations. *)
Lemma welford_moments (ps : list (R * R)) :
  ps <> [] ->
  let w := fold_left rw_step ps rw_init in
  rmx w = Rsum (map fst ps) / INR (List.length ps)
  /\ rmy w = Rsum (map snd ps) / INR (List.length ps)
  /\ rsx w = co_moment ps fst fst
  /\ rsy w = co_moment ps snd snd
  /\ rcxy w = co_moment ps fst snd.
Proof.
  cbv zeta. induction ps as [|p ps IH] using rev_ind; [congruence|]. intros _.
  destruct ps as [|q ps'].
  - unfold co_moment. cbn. repeat split; field.
  - destruct IH as (E1 & E2 & E3 & E4 & E5); [discriminate|].
    set (l := q :: ps') in *.
    assert (Hn : rn (fold_left rw_step l rw_init) = Z.of_nat (List.length l)).
    { rewrite rw_fold_n. reflexivity. }
    assert (Hpos : 0 < INR (List.length l)) by (apply lt_0_INR; simpl; lia).
    rewrite fold_left_app. cbn [fold_left].
    set (w := fold_left rw_step l rw_init) in *.
    rewrite !co_moment_raw in E3, E4, E5 by discriminate.
    rewrite !co_moment_raw by (destruct l; discriminate).
    rewrite !Rsum_snoc, length_app. cbn [List.length].
    rewrite Nat.add_1_r, S_INR.
    unfold rw_step. cbn [rn rmx rmy rsx rsy rcxy].
    rewrite Hn, plus_IZR, <- INR_IZR_INZ, E1, E2, E3, E4, E5.
    repeat split; field; lra.
Qed.

(** Cauchy and Schwarz: the square of a sum of products is at most the
    product of the sums of squares. *)
Lemma quadratic_nonneg (l : list (R * R)) (t : R) :
  0 <= Rsum (map (fun p => fst p * fst p) l) * (t * t)
       + 2 * Rsum (map (fun p => fst p * snd p) l) * t
       + Rsum (map (fun p => snd p * snd p) l).
Proof.
  induction l as [|[a b] l IH]; cbn [map].
  - simpl. lra.
  - unfold Rsum in *. cbn [fold_right fst snd].
    pose proof (Rle_0_sqr (a * t + b)) as Hsq. unfold Rsqr in Hsq. nra.
Qed.

Lemma cauchy_schwarz (l : list (R * R)) :
  Rsum (map (fun p => fst p * snd p) l) * Rsum (map (fun p => fst p * snd p) l)
  <= Rsum (map (fun p => fst p * fst p) l) * Rsum (map (fun p => snd p * snd p) l).
Proof.
  set (A := Rsum (map (fun p => fst p * fst p) l)).
  set (B := Rsum (map (fun p => snd p * snd p) l)).
  set (C := Rsum (map (fun p => fst p * snd p) l)).
  assert (HA : 0 <= A).
  { unfold A. clear. induction l as [|[a b] l IH]; cbn [map]; [simpl; lra|].
    unfold Rsum in *. cbn [fold_right fst]. nra. }
  assert (Hq : forall t, 0 <= A * (t * t) + 2 * C * t + B)
    by (intros t; apply quadratic_nonneg).
  destruct (Req_dec_T A 0) as [E0|N0].
  - rewrite E0, Rmult_0_l.
    destruct (Req_dec_T C 0) as [EC|NC]; [rewrite EC; lra|].
    exfalso. specialize (Hq (- (B + 1) / (2 * C))).
    rewrite E0 in Hq.
    replace (0 * (- (B + 1) / (2 * C) * (- (B + 1) / (2 * C)))
             + 2 * C * (- (B + 1) / (2 * C)) + B) with (-1) in Hq by (field; lra).
    lra.
  - assert (0 < A) by lra.
    specialize (Hq (- C / A)).
    replace (A * (- C / A * (- C / A)) + 2 * C * (- C / A) + B)
      with ((A * B - C * C) / A) in Hq by (field; lra).
    assert (0 <= (A * B - C * C) / A * A) by (apply Rmult_le_pos; lra).
    replace ((A * B - C * C) / A * A) with (A * B - C * C) in * by (field; lra).
    lra.
Qed.

Lemma co_moment_cauchy_schwarz (ps : list (R * R)) :
  co_moment ps fst snd * co_moment ps fst snd
  <= co_moment ps fst fst * co_moment ps snd snd.
Proof.
  unfold co_moment.
  set (mx := Rsum (map fst ps) / INR (List.length ps)).
  set (my := Rsum (map snd ps) / INR (List.length ps)).
  pose proof (cauchy_schwarz (map (fun p => (fst p - mx, snd p - my)) ps)) as H.
  rewrite !map_map in H. cbn [fst snd] in H. exact H.
Qed.

Lemma co_moment_nonneg (ps : list (R * R)) (f : R * R -> R) : 0 <= co_moment ps f f.
Proof.
  unfold co_moment.
  set (m := Rsum (map f ps) / INR (List.length ps)). clearbody m.
  induction ps as [|p ps IH]; cbn [map]; [simpl; lra|].
  unfold Rsum in *. cbn [fold_right].
  pose proof (Rle_0_sqr (f p - m)) as Hsq. unfold Rsqr in Hsq. lra.
Qed.

Lemma pearson_within_unit (ps : list (R * R)) :
  co_moment ps fst fst * co_moment ps snd snd <> 0 -> -1 <= pearson ps <= 1.
Proof.
  intros Hnz. unfold pearson.
  pose proof (co_moment_cauchy_schwarz ps) as Hcs.
  pose proof (co_moment_nonneg ps fst) as Hx.
  pose proof (co_moment_nonneg ps snd) as Hy.
  set (C := co_moment ps fst snd) in *.
  set (P := co_moment ps fst fst * co_moment ps snd snd) in *.
  assert (HP : 0 < P) by (unfold P in *; nra).
  assert (Hs : 0 < sqrt P) by now apply sqrt_lt_R0.
  assert (Hss : sqrt P * sqrt P = P) by (apply sqrt_sqrt; lra).
  assert (Hb : - sqrt P <= C <= sqrt P) by nra.
  split.
  - apply Rmult_le_reg_r with (sqrt P); [assumption|].
    replace (C / sqrt P * sqrt P) with C by (field; lra). lra.
  - apply Rmult_le_reg_r with (sqrt P); [assumption|].
    replace (C / sqrt P * sqrt P) with C by (field; lra). lra.
Qed.

Lemma clip_within (x : R) : -1 <= x <= 1 -> clip (Some x) = Some x.
Proof.
  intros Hx. unfold clip. cbn [fofZ fltb exact xcmp]. unfold Rltb.
  destruct (Rlt_dec 1 x); [lra|]. destruct (Rlt_dec x (-1)); [lra | reflexivity].
Qed.

(** X16.  In exact arithmetic a cell of the correlation matrix is Pearson's
    coefficient of the rows where both columns hold a number: the sum of the
    products of the deviations from the two means over the root of the product
    of the two sums of squared deviations.  The cell is NaN when there is no
    such row or when that product is zero, and the clipping never changes the
    value. *)
Theorem corr_cell_is_pearson (xs ys : list xreal) :
  let ps := real_pairs xs ys in
  (ps = [] -> corr_cell xs ys = None)
  /\ (ps <> [] ->
      (co_moment ps fst fst * co_moment ps snd snd = 0 -> corr_cell xs ys = None)
      /\ (co_moment ps fst fst * co_moment ps snd snd <> 0 ->
          corr_cell xs ys = Some (pearson ps) /\ -1 <= pearson ps <= 1)).
Proof.
  cbv zeta. rewrite corr_cell_exact. cbv zeta.
  set (ps := real_pairs xs ys). split.
  - intros ->. reflexivity.
  - intros Hne.
    destruct (welford_moments ps Hne) as (_ & _ & Ex & Ey & Ec). cbv zeta in *.
    assert (Hn : (rn (fold_left rw_step ps rw_init) <? 1)%Z = false).
    { apply Z.ltb_ge. rewrite rw_fold_n. cbn [rw_init rn].
      destruct ps; [congruence | simpl; lia]. }
    rewrite Hn, Ex, Ey, Ec. unfold Reqb. split.
    + intros E0. rewrite E0, sqrt_0.
      destruct (Req_dec_T 0 0); [reflexivity | contradiction].
    + intros Hnz.
      pose proof (co_moment_nonneg ps fst) as Hx.
      pose proof (co_moment_nonneg ps snd) as Hy.
      assert (HP : 0 < co_moment ps fst fst * co_moment ps snd snd) by nra.
      pose proof (sqrt_lt_R0 _ HP) as Hs.
      destruct (Req_dec_T (sqrt (co_moment ps fst fst * co_moment ps snd snd)) 0);
        [lra|].
      pose proof (pearson_within_unit ps Hnz) as Hb.
      split; [|exact Hb]. now apply clip_within.
Qed.

Local Close Scope R_scope.

(** ** The correlation matrix *)

(** C7, as the code has it.  For a non-empty frame and a non-empty selection
    of its medication columns, [corr] yields the square matrix of the cells
    of the selected columns, pair by pair; each cell reads only the rows
    where both columns are finite; the matrix is symmetric; a cell with no
    such row or with a zero divisor is NaN.  In exact arithmetic a cell is
    Pearson's coefficient of the rows it reads, NaN when there is none or
    when one of the two columns has no spread over them; a column holding two
    different numbers has 1 on the diagonal, and a column whose numbers are
    all equal (or that holds fewer than two) has NaN in its whole row and
    column; so a single selected column gives a 1 x 1 matrix that holds 1 in
    the first case and NaN in the second. *)
Theorem corr_matrix_pearson :
  (forall (F : Type) (H : Float64 F) (fdf : DataFrame F)
          (selected_medications : list string),
      empty fdf = false ->
      selected_medications <> [] ->
      (forall m, In m selected_medications -> In m (medication_columns fdf)) ->
      let cols := map (column_values fdf) selected_medications in
      let K := List.length selected_medications in
      corr_matrix fdf selected_medications = Ok (corr cols)
      /\ List.length (corr cols) = K
      /\ Forall (fun row => List.length row = K) (corr cols)
      /\ (forall i j, (i < K)%nat -> (j < K)%nat ->
             nth j (nth i (corr cols) []) fnan = corr_entry cols i j
             /\ nth j (nth i (corr cols) []) fnan = nth i (nth j (corr cols) []) fnan)
      /\ (forall i j,
             corr_entry cols i j
             = corr_cell (nth (Nat.max i j) cols []) (nth (Nat.min i j) cols []))
      /\ (forall xs ys : list F,
             complete_pairs xs ys
             = filter (fun v => fisfinite (fst v) && fisfinite (snd v)) (combine xs ys)
             /\ corr_cell xs ys
                = corr_cell (map fst (complete_pairs xs ys))
                            (map snd (complete_pairs xs ys)))
      /\ (forall xs ys : list F,
             let w := fold_left welford_step (complete_pairs xs ys) welford_init in
             (complete_pairs xs ys = [] -> corr_cell xs ys = fnan)
             /\ (feqb (fsqrt (fmul (ssqdmx w) (ssqdmy w))) (fofZ 0) = true ->
                 corr_cell xs ys = fnan)))
  /\ (forall (cols : list (list xreal)) (i j : nat),
         let ps := real_pairs (nth (Nat.max i j) cols []) (nth (Nat.min i j) cols []) in
         (ps = [] -> corr_entry cols i j = None)
         /\ (ps <> [] ->
             ((co_moment ps fst fst * co_moment ps snd snd = 0)%R ->
              corr_entry cols i j = None)
             /\ ((co_moment ps fst fst * co_moment ps snd snd <> 0)%R ->
                 corr_entry cols i j = Some (pearson ps)
                 /\ (-1 <= pearson ps <= 1)%R)))
  /\ (forall (cols : list (list xreal)) (i : nat) (xs : list xreal),
         nth_error cols i = Some xs ->
         ((exists a b, In (Some a) xs /\ In (Some b) xs /\ a <> b) ->
          corr_entry cols i i = Some 1%R)
         /\ ((forall a b, In (Some a) xs -> In (Some b) xs -> a = b) ->
             forall j, corr_entry cols i j = None /\ corr_entry cols j i = None))
  /\ (forall xs : list xreal,
         ((exists a b, In (Some a) xs /\ In (Some b) xs /\ a <> b) ->
          corr [xs] = [[Some 1%R]])
         /\ ((forall a b, In (Some a) xs -> In (Some b) xs -> a = b) ->
             corr [xs] = [[None]])).
Proof.
  assert (Hentry : forall (F : Type) (H : Float64 F) (cols : list (list F)) i j,
             corr_entry cols i j
             = corr_cell (nth (Nat.max i j) cols []) (nth (Nat.min i j) cols [])).
  { intros F H cols i j. unfold corr_entry.
    destruct (Nat.leb_spec j i).
    - now rewrite Nat.max_l, Nat.min_r by lia.
    - now rewrite Nat.max_r, Nat.min_l by lia. }
  split; [|split; [|split]].
  - intros F H fdf meds _ _ Hall. cbv zeta.
    pose proof (corr_shape (map (column_values fdf) meds)) as [Hlen Hrows].
    rewrite length_map in Hlen, Hrows.
    split; [now apply corr_matrix_explicit|].
    split; [exact Hlen|]. split; [exact Hrows|].
    split; [|split; [|split]].
    + intros i j Hi Hj.
      rewrite !corr_nth by now rewrite length_map.
      split; [reflexivity | apply corr_entry_sym].
    + intros i j. apply Hentry.
    + intros xs ys. split; [reflexivity | apply corr_cell_complete].
    + intros xs ys. apply corr_cell_undefined.
  - intros cols i j. cbv zeta. rewrite Hentry.
    set (xs := nth (Nat.max i j) cols []). set (ys := nth (Nat.min i j) cols []).
    rewrite corr_cell_exact. cbv zeta.
    set (ps := real_pairs xs ys). split.
    + intros ->. reflexivity.
    + intros Hne.
      destruct (welford_moments ps Hne) as (_ & _ & Ex & Ey & Ec). cbv zeta in *.
      assert (Hn : (rn (fold_left rw_step ps rw_init) <? 1) = false).
      { apply Z.ltb_ge. rewrite rw_fold_n. cbn [rw_init rn].
        destruct ps; [congruence | simpl; lia]. }
      rewrite Hn, Ex, Ey, Ec. unfold Reqb. split.
      * intros E0. rewrite E0, sqrt_0.
        destruct (Req_dec_T 0 0); [reflexivity | contradiction].
      * intros Hnz.
        pose proof (co_moment_nonneg ps fst) as Hx.
        pose proof (co_moment_nonneg ps snd) as Hy.
        assert (HP : (0 < co_moment ps fst fst * co_moment ps snd snd)%R) by nra.
        pose proof (sqrt_lt_R0 _ HP) as Hs.
        destruct (Req_dec_T (sqrt (co_moment ps fst fst * co_moment ps snd snd)) 0);
          [lra|].
        pose proof (pearson_within_unit ps Hnz) as Hb.
        split; [|exact Hb]. now apply clip_within.
  - intros cols i xs Hi.
    assert (Hnth : nth i cols [] = xs) by now apply nth_error_nth.
    split.
    + intros Hd. unfold corr_entry. rewrite Nat.leb_refl, Hnth.
      now apply corr_cell_diag_one.
    + intros Hc j. rewrite (corr_entry_sym cols j i).
      assert (E : corr_entry cols i j = None).
      { unfold corr_entry. rewrite Hnth.
        destruct (corr_cell_constant xs (nth j cols []) Hc) as [E1 E2].
        destruct (j <=? i)%nat; assumption. }
      now rewrite E.
  - intros xs. unfold corr, corr_entry. cbn. split.
    + intros Hd. now rewrite corr_cell_diag_one.
    + intros Hc. now rewrite (proj1 (corr_cell_constant xs xs Hc)).
Qed.

(** ** Constant columns *)

Local Open Scope R_scope.

Lemma all_equal_dec (xs : list R) :
  {forall a b, In a xs -> In b xs -> a = b}
  + {exists a b, In a xs /\ In b xs /\ a <> b}.
Proof.
  destruct xs as [|c l]; [left; intros a b []|].
  destruct (Forall_Exists_dec (fun x => x = c) (fun x => Req_dec_T x c) l) as [Hall|Hex].
  - left. rewrite Forall_forall in Hall. intros a b Ha Hb.
    assert (Ea : a = c) by (destruct Ha as [<-|Ha]; [reflexivity | now apply Hall]).
    assert (Eb : b = c) by (destruct Hb as [<-|Hb]; [reflexivity | now apply Hall]).
    congruence.
  - right. apply Exists_exists in Hex as (x & Hx & Nx).
    exists x, c. repeat split; [now right | now left | assumption].
Qed.

Lemma Rsum_squares_zero (m : R) (xs : list R) :
  Rsum (map (fun x => (x - m) * (x - m)) xs) = 0 <-> forall x, In x xs -> x = m.
Proof.
  induction xs as [|x xs IH]; cbn [map].
  - split; [intros _ y [] | reflexivity].
  - change (Rsum ((x - m) * (x - m) :: map (fun x => (x - m) * (x - m)) xs))
      with ((x - m) * (x - m) + Rsum (map (fun x => (x - m) * (x - m)) xs)).
    pose proof (Rsum_squares_nonneg m xs) as Hs.
    pose proof (Rle_0_sqr (x - m)) as Hx. unfold Rsqr in Hx.
    split.
    + intros E.
      assert (E1 : (x - m) * (x - m) = 0) by lra.
      assert (E2 : Rsum (map (fun x => (x - m) * (x - m)) xs) = 0) by lra.
      intros y [<-|Hy]; [nra | now apply IH].
    + intros Hall.
      rewrite (proj2 IH) by (intros y Hy; apply Hall; now right).
      rewrite (Hall x (or_introl eq_refl)). ring.
Qed.

Lemma Rsum_constant (c : R) (xs : list R) :
  (forall x, In x xs -> x = c) -> Rsum xs = INR (List.length xs) * c.
Proof.
  induction xs as [|x xs IH]; intros Hall.
  - simpl. ring.
  - change (Rsum (x :: xs)) with (x + Rsum xs).
    change (List.length (x :: xs)) with (S (List.length xs)). rewrite S_INR.
    rewrite IH by (intros y Hy; apply Hall; now right).
    rewrite (Hall x (or_introl eq_refl)). ring.
Qed.

(** X17.  A column without spread.  In exact arithmetic, for a column with at
    least two non-null cells, the standard deviation is a number that is not
    negative, and it is zero exactly when all the non-null cells are equal;
    that is also exactly when the column's diagonal cell of the correlation
    matrix is NaN, the cell being 1 otherwise. *)
Theorem zero_spread (col : list xreal) :
  (2 <= List.length (nonnull col))%nat ->
  exists s,
    Std_Dev (describe_sum col) = Some s
    /\ 0 <= s
    /\ (s = 0 <-> forall a b, In (Some a) col -> In (Some b) col -> a = b)
    /\ (s = 0 -> corr_cell col col = None)
    /\ (s <> 0 -> corr_cell col col = Some 1).
Proof.
  intros Hn. cbn [Std_Dev describe_sum].
  pose proof (std_exact col Hn) as Es. cbv zeta in Es.
  set (xs := nonnull col) in *.
  set (n := INR (List.length xs)) in *.
  set (mu := Rsum xs / n) in *.
  set (Q := Rsum (map (fun x => (x - mu) * (x - mu)) xs)) in *.
  assert (Hn2 : 2 <= n) by (apply (le_INR 2); exact Hn).
  assert (HQ : 0 <= Q) by apply Rsum_squares_nonneg.
  assert (Hq : 0 <= Q / (n - 1)).
  { apply Rmult_le_pos; [assumption|]. apply Rlt_le, Rinv_0_lt_compat. lra. }
  assert (Hzero : sqrt (Q / (n - 1)) = 0 <-> Q = 0).
  { split.
    - intros E. apply sqrt_eq_0 in E; [|assumption].
      assert (Q = Q / (n - 1) * (n - 1)) by (field; lra). nra.
    - intros ->. unfold Rdiv. rewrite Rmult_0_l. apply sqrt_0. }
  assert (Hconst : Q = 0 <-> forall a b, In (Some a) col -> In (Some b) col -> a = b).
  { unfold Q. rewrite Rsum_squares_zero. split.
    - intros Hall a b Ha Hb. apply nonnull_In in Ha, Hb.
      rewrite (Hall a Ha), (Hall b Hb). reflexivity.
    - intros Heq x Hx.
      assert (Hc : forall y, In y xs -> y = x).
      { intros y Hy. apply Heq; now apply nonnull_In. }
      unfold mu. rewrite (Rsum_constant x xs Hc). fold n. field. lra. }
  exists (sqrt (Q / (n - 1))).
  split; [exact Es|]. split; [apply sqrt_pos|].
  split; [now rewrite Hzero|]. split.
  - intros E. apply corr_cell_constant. apply (proj1 Hconst), (proj1 Hzero), E.
  - intros N. apply corr_cell_diag_one.
    destruct (all_equal_dec xs) as [Heq|(a & b & Ha & Hb & Hab)].
    + exfalso. apply N, (proj2 Hzero), (proj2 Hconst). intros a b Ha Hb.
      apply Heq; now apply nonnull_In.
    + exists a, b. repeat split; try assumption; now apply nonnull_In.
Qed.

Local Close Scope R_scope.

(** * The further properties on the sample data *)

Local Open Scope string_scope.

Lemma columns_checked {F : Type} (df : DataFrame F) (names : list string) :
  forallb (fun m => str_in m (medication_columns df)) names = true ->
  forall m, In m names -> In m (medication_columns df).
Proof.
  intros Hall m Hm. rewrite forallb_forall in Hall. specialize (Hall m Hm).
  unfold str_in in Hall. apply existsb_exists in Hall as (x & Hx & E).
  apply String.eqb_eq in E. now subst x.
Qed.

Lemma checked_all {A : Type} (P : A -> Prop) (p : A -> bool) (l : list A) :
  (forall a, p a = true -> P a) -> forallb p l = true -> forall a, In a l -> P a.
Proof.
  intros Hp Hall a Ha. rewrite forallb_forall in Hall. auto.
Qed.

(** X1 on January of the scenario. *)
Lemma date_range_is_extremal_witness :
  exists first last,
    date_min january = Some first /\ date_max january = Some last
    /\ strftime (Some first) = Ok "2023-01-05"
    /\ strftime (Some last) = Ok "2023-01-30"
    /\ ts_le first last.
Proof.
  assert (Hne : nonnull (map Date (rows january)) <> []) by (vm_compute; discriminate).
  destruct (proj2 (date_range_is_extremal january) Hne)
    as (first & last & E1 & E2 & _ & _ & Hle & _).
  exists first, last. split; [exact E1|]. split; [exact E2|].
  assert (Ef : Some first = Some (mkTimestamp 2023 1 5)) by (rewrite <- E1; reflexivity).
  assert (El : Some last = Some (mkTimestamp 2023 1 30)) by (rewrite <- E2; reflexivity).
  rewrite Ef, El. repeat split. exact Hle.
Defined.

(** X2 on the two-year file, on the one-year scenario and on a file with no
    record. *)
Lemma year_bounds_extremal_witness :
  (year_bounds history = Ok (2022, 2023) /\ st_slider 2022 2023 None = Ok (2022, 2023))
  /\ (year_bounds scenario = Ok (2023, 2023)
      /\ st_slider 2023 2023 None
         = Raise (StreamlitAPIException "Slider min_value must be less than max_value"))
  /\ year_bounds (mkFrame ["DrugA"] (@nil (Row float)))
     = Raise (ValueError "cannot convert float NaN to integer").
Proof.
  split; [|split].
  - destruct (proj2 (year_bounds_extremal float history)
                    (derive (Some (mkTimestamp 2022 12 31)) [0; 21]%float) 2022
                    (or_introl eq_refl) eq_refl)
      as (lo & hi & E & _ & _ & _ & _ & Hdrawn & _).
    assert (Eb : Ok (lo, hi) = Ok (2022, 2023)) by (rewrite <- E; reflexivity).
    injection Eb as -> ->.
    split; [exact E|]. apply Hdrawn. lia.
  - destruct (proj2 (year_bounds_extremal float scenario)
                    (derive (Some (mkTimestamp 2023 1 5)) [1; 20]%float) 2023
                    (or_introl eq_refl) eq_refl)
      as (lo & hi & E & _ & _ & _ & _ & _ & Hrefused).
    assert (Eb : Ok (lo, hi) = Ok (2023, 2023)) by (rewrite <- E; reflexivity).
    injection Eb as -> ->.
    split; [exact E|]. now apply Hrefused.
  - apply (proj1 (year_bounds_extremal float (mkFrame ["DrugA"] []))).
    intros r [].
Defined.

(** X4 on the two-year file: January has rows, no month has none. *)
Lemma display_raises_iff_empty_witness :
  raises (display history ["DrugA"; "DrugB"] (2022, 2023) [Some 1] (1, 31)) = false
  /\ raises (display history ["DrugA"; "DrugB"] (2022, 2023) [] (1, 31)) = true.
Proof.
  assert (Hwd : Forall well_derived (rows history))
    by apply load_data_well_derived.
  assert (Hne : ["DrugA"; "DrugB"] <> []) by discriminate.
  assert (Hcols : forall m, In m ["DrugA"; "DrugB"] -> In m (medication_columns history))
    by (apply columns_checked; reflexivity).
  split.
  - rewrite (proj1 (display_raises_iff_empty history ["DrugA"; "DrugB"] (2022, 2023)
                      [Some 1] (1, 31) Hwd Hne Hcols)).
    reflexivity.
  - rewrite (proj1 (display_raises_iff_empty history ["DrugA"; "DrugB"] (2022, 2023)
                      [] (1, 31) Hwd Hne Hcols)).
    reflexivity.
Defined.

Lemma history_has_january : exists r, In r (rows history) /\ Month r = Some 1.
Proof.
  exists (derive (Some (mkTimestamp 2023 1 5)) [1; 20]%float).
  split; [right; now left | reflexivity].
Qed.

(** X5 on the two-year file with no control touched. *)
Lemma script_shows_widget_values_witness :
  script history untouched
  = (page <- display history ["DrugA"] (2022, 2023) [Some 1] (1, 31) ;;
     Ok (page ++ footer)%list).
Proof.
  exact (proj2 (script_shows_widget_values history untouched (2022, 2023)
                  eq_refl eq_refl history_has_january) eq_refl).
Defined.

(** X6 on a file whose only date does not parse, on the one-year scenario and
    on the February file. *)
Lemma script_stops_in_sidebar_witness :
  script undated untouched
  = Raise (ValueError "cannot convert float NaN to integer")
  /\ script scenario untouched
     = Raise (StreamlitAPIException "Slider min_value must be less than max_value")
  /\ script february (mkInteraction None None (Some [Some 2]) None)
     = Raise (StreamlitAPIException "Every Multiselect default value must exist in options").
Proof.
  split; [|split].
  - apply (proj1 (script_stops_in_sidebar _ untouched)).
    intros r [<-|[]]. reflexivity.
  - exact (proj1 (proj2 (script_stops_in_sidebar scenario untouched)) 2023 eq_refl).
  - apply (proj2 (proj2 (script_stops_in_sidebar february _)) (2022, 2023) eq_refl eq_refl).
    apply (checked_all (fun r => Month r <> Some 1)
                       (fun r => negb (cell_eqb (Month r) (Some 1)))).
    + intros r Hr E. rewrite E in Hr. discriminate.
    + reflexivity.
Defined.



(** X7 on the scenario. *)
Lemma available_months_ascending_witness :
  exists months,
    available_months scenario = map Some months /\ StronglySorted Z.lt months.
Proof.
  destruct (available_months_ascending float scenario) as (months & E & Hs & _).
  - apply (checked_all (fun r => Month r <> None) (fun r => isSome (Month r))).
    + intros r Hr E. rewrite E in Hr. discriminate.
    + reflexivity.
  - exists months. split; assumption.
Defined.


(** X9 on a leap day. *)
Lemma rows_beyond_cap_hidden_witness :
  mask (2024, 2024) [Some 2] (slider 1 (max_day [Some 2]) None)
       (derive (Some (mkTimestamp 2024 2 29)) [1]%float)
  = false.
Proof.
  apply (proj2 (proj2 (proj2 rows_beyond_cap_hidden)) float
               (derive (Some (mkTimestamp 2024 2 29)) [1]%float)).
  - reflexivity.
  - cbn. lia.
Defined.

(** X11 on the two-year file: one day of January within both months. *)
Lemma filter_narrows_witness :
  subseq (rows fifth_of_january)
         (rows (filtered_df history (2022, 2023) [Some 1; Some 2] (1, 31)))
  /\ rows (filtered_df history (2023, 2022) [Some 1] (1, 31)) = [].
Proof.
  split.
  - apply (proj1 (filter_narrows history (2022, 2023) (2022, 2023)
                    [Some 1] [Some 1; Some 2] (5, 5) (1, 31))).
    + split; cbn; lia.
    + intros x [<-|[]]. now left.
    + split; cbn; lia.
  - apply (proj1 (proj2 (proj2 (filter_narrows history (2023, 2022) (0, 0)
                                  [Some 1] [] (1, 31) (0, 0))))).
    cbn. lia.
Defined.

(** X14 on two short columns. *)
Lemma corr_within_unit_witness :
  within_unit (corr_entry [[1; 2; 3]; [2; 4; 7]]%float 0 1)
  /\ (corr_entry [[Some 1%R; Some 2%R]; [Some 2%R; Some 1%R]] 0 1 = None
      \/ exists x, corr_entry [[Some 1%R; Some 2%R]; [Some 2%R; Some 1%R]] 0 1 = Some x
                   /\ (-1 <= x <= 1)%R).
Proof.
  split.
  - apply (proj1 corr_within_unit [[1; 2; 3]; [2; 4; 7]]%float
                 (map (corr_entry [[1; 2; 3]; [2; 4; 7]]%float 0) [0; 1]%nat)).
    + now left.
    + right. now left.
  - apply (proj2 corr_within_unit [[Some 1%R; Some 2%R]; [Some 2%R; Some 1%R]]
                 (map (corr_entry [[Some 1%R; Some 2%R]; [Some 2%R; Some 1%R]] 0)
                      [0; 1]%nat)).
    + now left.
    + right. now left.
Defined.

(** X15 on a short column. *)
Lemma statistics_in_order_witness :
  exists lo q1 q2 q3 hi,
    Min (describe_sum [Some 1; None; Some 3]%R) = Some lo
    /\ Q25 (describe_sum [Some 1; None; Some 3]%R) = Some q1
    /\ Median (describe_sum [Some 1; None; Some 3]%R) = Some q2
    /\ Q75 (describe_sum [Some 1; None; Some 3]%R) = Some q3
    /\ Max (describe_sum [Some 1; None; Some 3]%R) = Some hi
    /\ (lo <= q1 /\ q1 <= q2 /\ q2 <= q3 /\ q3 <= hi)%R.
Proof.
  assert (Hne : nonnull [Some 1; None; Some 3]%R <> []) by discriminate.
  destruct (statistics_in_order [Some 1; None; Some 3]%R Hne)
    as (lo & q1 & q2 & q3 & hi & mu & total & E1 & E2 & E3 & E4 & E5 & _ & _
        & H1 & H2 & H3 & H4 & _).
  exists lo, q1, q2, q3, hi. repeat split; assumption.
Defined.

(** X16 on two columns with a gap. *)
Lemma corr_cell_is_pearson_witness :
  corr_cell [Some 1; Some 2; None]%R [Some 2; Some 4; Some 1]%R
  = Some (pearson [(1, 2); (2, 4)]%R)
  /\ corr_cell [None; Some 1%R] [Some 1%R; None] = None.
Proof.
  split.
  - assert (Hne : real_pairs [Some 1; Some 2; None]%R [Some 2; Some 4; Some 1]%R <> [])
      by discriminate.
    apply (proj2 (proj2 (corr_cell_is_pearson [Some 1; Some 2; None]%R
                           [Some 2; Some 4; Some 1]%R) Hne)).
    cbn [real_pairs]. unfold co_moment, Rsum. cbn. lra.
  - now apply (proj1 (corr_cell_is_pearson [None; Some 1%R] [Some 1%R; None])).
Defined.

(** C7: three things the matrix does not do.  One selected column does not
    always give 1: on the single row of 5 January the 1 x 1 matrix holds NaN,
    in the code's floats and in exact arithmetic alike.  A row where a column
    holds an infinity is not read, although the cell is not null: the cell is
    that of the other rows.  And in binary64 a column with two different
    numbers can have NaN on the diagonal, where the squared deviations
    overflow. *)
Lemma single_row_correlation_is_nan :
  (List.length (rows fifth_of_january) = 1%nat
   /\ corr_matrix fifth_of_january ["DrugA"] = Ok [[nan]]%float
   /\ corr [[Some 1%R]] = [[@None R]])
  /\ (fisna infinity = false
      /\ complete_pairs [1; 2; infinity]%float [2; 4; 5]%float
         = [(1, 2); (2, 4)]%float
      /\ corr [[1; 2; infinity]; [2; 4; 5]]%float = [[1; 1]; [1; 1]]%float)
  /\ (PrimFloat.eqb 1e200 2e200 = false
      /\ corr [[1e200; 2e200]]%float = [[nan]]%float).
Proof.
  split; [|split].
  - split; [reflexivity|]. split; [vm_compute; reflexivity|].
    unfold corr, corr_entry. cbn [List.length seq map Nat.leb nth].
    assert (Hc : forall a b : R, In (Some a) [Some 1%R] -> In (Some b) [Some 1%R] -> a = b).
    { intros a b [Ea|[]] [Eb|[]]. congruence. }
    do 2 f_equal. exact (proj1 (corr_cell_constant [Some 1%R] [Some 1%R] Hc)).
  - repeat split; vm_compute; reflexivity.
  - split; vm_compute; reflexivity.
Qed.

(** C7, amended, on the scenario and on short exact columns. *)
Lemma corr_matrix_pearson_witness :
  corr_matrix both_months ["DrugA"; "DrugB"]
  = Ok [[1; -0.95908540408277165]; [-0.95908540408277165; 1]]%float
  /\ corr_entry [[Some 1; Some 2; None]; [Some 2; Some 4; Some 1]]%R 0 1
     = Some (pearson [(2, 1); (4, 2)]%R)
  /\ corr [[Some 1; None; Some 3]%R] = [[Some 1%R]]
  /\ corr [[Some 2; None; Some 2]%R] = [[@None R]].
Proof.
  destruct corr_matrix_pearson as (Hgen & Hpearson & _ & Hone).
  split; [|split; [|split]].
  - rewrite (proj1 (Hgen float binary64 both_months ["DrugA"; "DrugB"]
                         eq_refl ltac:(discriminate)
                         (columns_checked both_months ["DrugA"; "DrugB"] eq_refl))).
    vm_compute. reflexivity.
  - assert (Hne : real_pairs [Some 2; Some 4; Some 1]%R [Some 1; Some 2; None]%R <> [])
      by discriminate.
    apply (proj2 (proj2 (Hpearson [[Some 1; Some 2; None]; [Some 2; Some 4; Some 1]]%R
                                  0%nat 1%nat) Hne)).
    cbn [Nat.max Nat.min nth real_pairs]. unfold co_moment, Rsum. cbn. lra.
  - apply (proj1 (Hone [Some 1; None; Some 3]%R)).
    exists 1%R, 3%R. simpl. repeat split; auto. lra.
  - apply (proj2 (Hone [Some 2; None; Some 2]%R)).
    intros a b Ha Hb. simpl in Ha, Hb.
    destruct Ha as [Ha|[Ha|[Ha|[]]]], Hb as [Hb|[Hb|[Hb|[]]]]; congruence.
Defined.

(** X17 on a column with spread and one without. *)
Lemma zero_spread_witness :
  (exists s, Std_Dev (describe_sum [Some 1; None; Some 3]%R) = Some s /\ (0 <= s)%R)
  /\ corr_cell [Some 2; Some 2]%R [Some 2; Some 2]%R = None.
Proof.
  split.
  - destruct (zero_spread [Some 1; None; Some 3]%R) as (s & E & Hs & _).
    + cbn. lia.
    + exists s. split; assumption.
  - destruct (zero_spread [Some 2; Some 2]%R) as (s & _ & _ & Hz & Hc & _).
    + cbn. lia.
    + apply Hc, Hz. intros a b [Ea|[Ea|[]]] [Eb|[Eb|[]]]; congruence.
Defined.

